(** * tracking_electoral: a shallow embedding of the survey pipeline

    The Python module [tracking_electoral.py] loads a survey table, cleans it,
    aggregates it by groups and smooths the daily series with a trailing
    window.  Tables are modelled row-wise as lists of records with the columns
    of [DATA_COLUMNS] (a nullable cell is an [option]); the table handed to the
    windower is modelled column-wise, as pandas looks a column up by name.

    Modelling conventions:
    - [datetime64[ns]] timestamps are integers ([Z]);
    - [Float64] cells are exact rationals ([Q]): rounding of binary floating
      point is abstracted, so equalities between computed numbers are stated
      up to [Qeq] or after [Qred];
    - text is a [string] of ASCII code points; [str.strip], [str.lower] and
      [str.title] follow CPython on that range;
    - a Python exception is a value of [Error] carried by [Result]. *)

From Stdlib Require Import ZArith QArith String Ascii Bool Lia Lqa.
From Stdlib Require Import List Permutation Sorted.
Import ListNotations.

Open Scope string_scope.
Open Scope Z_scope.

(* ================================================================= *)
(** ** Exceptions *)

Inductive Error : Type :=
| ValueError (msg : string)
| KeyError (columna : string)
| DataError (msg : string)
| OverflowError.

Inductive Result (A : Type) : Type :=
| Ok (a : A)
| Raise (e : Error).

Arguments Ok {A} a.
Arguments Raise {A} e.

Definition bind {A B : Type} (m : Result A) (k : A -> Result B) : Result B :=
  match m with
  | Ok a => k a
  | Raise e => Raise e
  end.

Notation "x <- m ;; k" := (bind m (fun x => k))
  (at level 61, m at next level, right associativity).

(** The two [ValueError]s raised by [aplicar_funcion_ventana]; they are told
    apart by their message. *)
Definition InvalidWindowError : Error :=
  ValueError "La ventana debe ser un entero positivo".

Definition UnsupportedWindowFunctionError : Error :=
  ValueError "Función de ventana no soportada".

(* ================================================================= *)
(** ** Python string methods on ASCII text *)

Definition codigo (c : ascii) : nat := nat_of_ascii c.

(** [str.isspace] for one character: TAB, LF, VT, FF, CR, FS, GS, RS, US and
    the space. *)
Definition isspace (c : ascii) : bool :=
  let n := codigo c in
  ((9 <=? n) && (n <=? 13) || (28 <=? n) && (n <=? 32))%nat.

Definition isupper (c : ascii) : bool :=
  let n := codigo c in ((65 <=? n) && (n <=? 90))%nat.

Definition islower (c : ascii) : bool :=
  let n := codigo c in ((97 <=? n) && (n <=? 122))%nat.

Definition iscased (c : ascii) : bool := isupper c || islower c.

Definition lower_ascii (c : ascii) : ascii :=
  if isupper c then ascii_of_nat (codigo c + 32) else c.

Definition upper_ascii (c : ascii) : ascii :=
  if islower c then ascii_of_nat (codigo c - 32) else c.

Fixpoint lower (s : string) : string :=
  match s with
  | EmptyString => EmptyString
  | String c s' => String (lower_ascii c) (lower s')
  end.

Fixpoint lstrip (s : string) : string :=
  match s with
  | EmptyString => EmptyString
  | String c s' => if isspace c then lstrip s' else s
  end.

Fixpoint rstrip (s : string) : string :=
  match s with
  | EmptyString => EmptyString
  | String c s' =>
      match rstrip s' with
      | EmptyString => if isspace c then EmptyString else String c EmptyString
      | r => String c r
      end
  end.

Definition strip (s : string) : string := rstrip (lstrip s).

(** [str.title]: a character that follows a cased character is lowered, any
    other character is title-cased. *)
Fixpoint title_aux (previous_is_cased : bool) (s : string) : string :=
  match s with
  | EmptyString => EmptyString
  | String c s' =>
      String (if previous_is_cased then lower_ascii c else upper_ascii c)
             (title_aux (iscased c) s')
  end.

Definition title (s : string) : string := title_aux false s.

(** A text that does not start with white space. *)
Definition sin_espacio_inicial (s : string) : Prop :=
  match s with
  | EmptyString => True
  | String c _ => isspace c = false
  end.

(** [Series.astype(str)]: a missing cell becomes its printed form. *)
Definition astype_str (na : string) (v : option string) : string :=
  match v with
  | Some s => s
  | None => na
  end.

(* ================================================================= *)
(** ** Generic list helpers *)

Definition option_eqb {A : Type} (eqb : A -> A -> bool) (x y : option A) : bool :=
  match x, y with
  | Some a, Some b => eqb a b
  | None, None => true
  | _, _ => false
  end.

(** Rows whose key was not seen before, in input order (pandas keeps the first
    occurrence). *)
Fixpoint primeras {A K : Type} (eqb : K -> K -> bool) (key : A -> K)
         (vistas : list K) (l : list A) : list A :=
  match l with
  | [] => []
  | a :: l' =>
      if existsb (eqb (key a)) vistas then primeras eqb key vistas l'
      else a :: primeras eqb key (key a :: vistas) l'
  end.

Fixpoint omap {A B : Type} (f : A -> option B) (l : list A) : list B :=
  match l with
  | [] => []
  | a :: l' =>
      match f a with
      | Some b => b :: omap f l'
      | None => omap f l'
      end
  end.

Fixpoint insertar {A : Type} (leb : A -> A -> bool) (x : A) (l : list A) : list A :=
  match l with
  | [] => [x]
  | y :: l' => if leb x y then x :: l else y :: insertar leb x l'
  end.

Definition ordenar {A : Type} (leb : A -> A -> bool) (l : list A) : list A :=
  fold_right (insertar leb) [] l.

(* ================================================================= *)
(** ** Numeric reductions *)

Definition suma (xs : list Q) : Q := fold_right Qplus 0%Q xs.

Definition media (xs : list Q) : Q :=
  (suma xs / inject_Z (Z.of_nat (length xs)))%Q.

Definition mediana (xs : list Q) : Q :=
  let s := ordenar Qle_bool xs in
  let n := length s in
  if Nat.even n
  then ((nth (n / 2 - 1) s 0%Q + nth (n / 2) s 0%Q) / (2 # 1))%Q
  else nth (n / 2)%nat s 0%Q.

(** Observations of a column: the non-null cells. *)
Definition observaciones (xs : list (option Q)) : list Q := omap (fun x => x) xs.

(** A reduction that skips nulls and needs [minp] observations. *)
Definition reducir (f : list Q -> Q) (minp : nat) (xs : list (option Q)) : option Q :=
  let obs := observaciones xs in
  if (minp <=? length obs)%nat then Some (f obs) else None.

(** [Series.mean()] of a group: nulls skipped, null when nothing is left. *)
Definition mean (xs : list (option Q)) : option Q := reducir media 1 xs.

Definition clip (x lo hi : Q) : Q :=
  if Qle_bool x lo then lo else if Qle_bool hi x then hi else x.

(* ================================================================= *)
(** ** The survey table *)

(** A row of a survey table.  The record gives every table all its columns:
    the ten of [DATA_COLUMNS] and the three that [limpiar_datos] derives,
    which are null in a table that has not been cleaned.  A table that lacks
    a column altogether, on which pandas raises [KeyError] as soon as the
    column is read, is outside this type: what is proved of the functions
    that read the derived columns ([indicadores_sociodemograficos],
    [tracking_electoral]) describes the code on tables that have them, as
    every cleaned table does. *)
Record Fila : Type := mkFila {
  Fecha : option Z;
  Encuesta : option string;
  Estrato : option string;
  Sexo : option string;
  Edad : option Z;
  NivelEducativo : option string;
  IntegrantesHogar : option Z;
  ImagenDelCandidato : option Q;
  Voto : option string;
  VotoAnterior : option string;
  (* derived columns, absent (null) before cleaning *)
  ImagenNormalizada : option Q;
  IntencionVoto : option Z;
  EdadRango : option string
}.

Definition DataFrame : Type := list Fila.

Record TrackingConfig : Type := mkConfig {
  ventana : Z;
  tipo_resumen : string;
  columna_objetivo : string;
  candidato_objetivo : string;
  ruta_grafico : option string
}.

Definition config_por_defecto : TrackingConfig :=
  mkConfig 3 "mean" "IntencionVoto" "Candidato A" (Some "output/tracking.png").

(* ================================================================= *)
(** ** cargar_datos *)

(** Order of the [Fecha] column under [sort_values]: ascending, [NaT] last. *)
Definition fecha_le (a b : option Z) : Prop :=
  match a, b with
  | Some x, Some y => x <= y
  | _, None => True
  | None, Some _ => False
  end.

(** What pandas promises of the indexer computed by [sort_values] with its
    default [kind="quicksort"]: a permutation of the positions that puts the
    keys in ascending order, nulls last.  Nothing is promised about ties. *)
Definition contrato_en (argsort : list (option Z) -> list nat)
           (claves : list (option Z)) : Prop :=
  Permutation (argsort claves) (seq 0 (length claves)) /\
  Sorted fecha_le (map (fun i => nth i claves None) (argsort claves)).

Definition contrato_argsort (argsort : list (option Z) -> list nat) : Prop :=
  forall claves, contrato_en argsort claves.

(** A frame with its index labels. *)
Definition Indexado : Type := list (nat * Fila).

Definition take {A : Type} (l : list A) (indexer : list nat) : list A :=
  omap (nth_error l) indexer.

Definition sort_values_Fecha (argsort : list (option Z) -> list nat)
           (df : Indexado) : Indexado :=
  take df (argsort (map (fun r => Fecha (snd r)) df)).

Definition reset_index_drop (df : Indexado) : Indexado :=
  combine (seq 0 (length df)) (map snd df).

(** [leido] is the frame [pd.read_csv] returned (with its default
    [RangeIndex]); the [astype] loop coerces each column to the type the
    record already gives it.  The sorting algorithm of [sort_values] is the
    parameter [argsort]. *)
Definition cargar_datos (argsort : list (option Z) -> list nat)
           (leido : DataFrame) : Indexado :=
  let df := combine (seq 0 (length leido)) leido in
  reset_index_drop (sort_values_Fecha argsort df).

(** An indexer by insertion, which keeps ties in input order. *)
Definition fecha_leb (a b : option Z) : bool :=
  match a, b with
  | Some x, Some y => x <=? y
  | _, None => true
  | None, Some _ => false
  end.

Definition argsort_por (cmp : option Z -> option Z -> bool)
           (claves : list (option Z)) : list nat :=
  map fst
      (ordenar (fun a b => cmp (snd a) (snd b))
               (combine (seq 0 (length claves)) claves)).

Definition argsort_estable : list (option Z) -> list nat := argsort_por fecha_leb.

(** *** The sort pandas runs

    [sort_values("Fecha")] computes its indexer with [nargsort]: the
    positions of the present dates are sorted by NumPy's indirect quicksort
    ([aquicksort] of npysort, the default [kind]) and the positions of the
    missing dates are appended.  Both belong to the libraries, not to this
    repository; they are transcribed here to run the loader on a file.
    [tosort] is the array of positions the C code permutes in place. *)

Definition clave_en (v : list Z) (tosort : list nat) (p : nat) : Z :=
  nth (nth p tosort 0%nat) v 0.

Fixpoint poner {A : Type} (i : nat) (x : A) (l : list A) : list A :=
  match l, i with
  | [], _ => []
  | _ :: l', O => x :: l'
  | a :: l', S i' => a :: poner i' x l'
  end.

Definition INTP_SWAP (tosort : list nat) (i j : nat) : list nat :=
  poner j (nth i tosort 0%nat) (poner i (nth j tosort 0%nat) tosort).

(** [do ++pi; while (v[*pi] < vp)] *)
Fixpoint avanzar (fuel : nat) (v : list Z) (vp : Z) (tosort : list nat)
         (pi : nat) : nat :=
  match fuel with
  | O => pi
  | S fuel' =>
      let pi := S pi in
      if clave_en v tosort pi <? vp then avanzar fuel' v vp tosort pi else pi
  end.

(** [do --pj; while (vp < v[*pj])] *)
Fixpoint retroceder (fuel : nat) (v : list Z) (vp : Z) (tosort : list nat)
         (pj : nat) : nat :=
  match fuel with
  | O => pj
  | S fuel' =>
      let pj := Nat.pred pj in
      if vp <? clave_en v tosort pj then retroceder fuel' v vp tosort pj else pj
  end.

Fixpoint bucle_particion (fuel : nat) (v : list Z) (vp : Z) (tosort : list nat)
         (pi pj : nat) : list nat * nat :=
  match fuel with
  | O => (tosort, pi)
  | S fuel' =>
      let pi := avanzar (length tosort) v vp tosort pi in
      let pj := retroceder (length tosort) v vp tosort pj in
      if (pj <=? pi)%nat then (tosort, pi)
      else bucle_particion fuel' v vp (INTP_SWAP tosort pi pj) pi pj
  end.

(** Median of three, the pivot parked at [pr - 1], then the two scans. *)
Definition particion (v : list Z) (tosort : list nat) (pl pr : nat)
  : list nat * nat :=
  let pm := (pl + (pr - pl) / 2)%nat in
  let tosort := if clave_en v tosort pm <? clave_en v tosort pl
                then INTP_SWAP tosort pm pl else tosort in
  let tosort := if clave_en v tosort pr <? clave_en v tosort pm
                then INTP_SWAP tosort pr pm else tosort in
  let tosort := if clave_en v tosort pm <? clave_en v tosort pl
                then INTP_SWAP tosort pm pl else tosort in
  let vp := clave_en v tosort pm in
  let pj := (pr - 1)%nat in
  let tosort := INTP_SWAP tosort pm pj in
  let '(tosort, pi) := bucle_particion (length tosort) v vp tosort pl pj in
  (INTP_SWAP tosort pi (pr - 1), pi).

(** Inner loop of the insertion sort: shift right while [vp < v[*pk]]. *)
Fixpoint desplazar (fuel : nat) (v : list Z) (vp : Z) (tosort : list nat)
         (pl pj : nat) : list nat * nat :=
  match fuel with
  | O => (tosort, pj)
  | S fuel' =>
      if (pl <? pj)%nat && (vp <? clave_en v tosort (pj - 1))
      then desplazar fuel' v vp (poner pj (nth (pj - 1) tosort 0%nat) tosort)
                     pl (pj - 1)
      else (tosort, pj)
  end.

Definition insercion (v : list Z) (tosort : list nat) (pl pr : nat) : list nat :=
  fold_left
    (fun t pi =>
       let vi := nth pi t 0%nat in
       let vp := nth vi v 0 in
       let '(t, pj) := desplazar (length t) v vp t pl pi in
       poner pj vi t)
    (seq (S pl) (pr - pl)) tosort.

(** Sift of the heap sort; [a k] is the cell [pl + k - 1]. *)
Fixpoint hundir (fuel : nat) (v : list Z) (tosort : list nat) (pl : nat)
         (tmp : nat) (i j n : nat) : list nat :=
  match fuel with
  | O => poner (pl + i - 1) tmp tosort
  | S fuel' =>
      if (j <=? n)%nat then
        let j := if (j <? n)%nat
                    && (clave_en v tosort (pl + j - 1) <? clave_en v tosort (pl + j))
                 then S j else j in
        if nth tmp v 0 <? clave_en v tosort (pl + j - 1)
        then hundir fuel' v (poner (pl + i - 1) (nth (pl + j - 1) tosort 0%nat) tosort)
                    pl tmp j (j + j) n
        else poner (pl + i - 1) tmp tosort
      else poner (pl + i - 1) tmp tosort
  end.

Definition aheapsort (v : list Z) (tosort : list nat) (pl n : nat) : list nat :=
  let tosort :=
    fold_left (fun t l => hundir n v t pl (nth (pl + l - 1) t 0%nat) l (2 * l) n)
              (rev (seq 1 (n / 2))) tosort in
  fold_left
    (fun t m =>
       let tmp := nth (pl + m - 1) t 0%nat in
       let t := poner (pl + m - 1) (nth pl t 0%nat) t in
       hundir n v t pl tmp 1 2 (m - 1))
    (rev (seq 2 (n - 1))) tosort.

Definition SMALL_QUICKSORT : nat := 16.

(** The outer loop with its explicit stack of pending segments; [tope] tells
    that control is at the top of the loop, where the depth is tested. *)
Fixpoint tramos (fuel : nat) (v : list Z) (tosort : list nat) (pl pr : nat)
         (cdepth : Z) (stack : list (nat * nat * Z)) (tope : bool) : list nat :=
  match fuel with
  | O => tosort
  | S fuel' =>
      if tope && (cdepth <? 0) then
        let tosort := aheapsort v tosort pl (pr - pl + 1) in
        match stack with
        | [] => tosort
        | (pl', pr', d) :: stack' => tramos fuel' v tosort pl' pr' d stack' true
        end
      else if (SMALL_QUICKSORT <? pr - pl)%nat then
        let '(tosort, pi) := particion v tosort pl pr in
        let cdepth := cdepth - 1 in
        if (pi - pl <? pr - pi)%nat
        then tramos fuel' v tosort pl (pi - 1) cdepth
                    ((S pi, pr, cdepth) :: stack) false
        else tramos fuel' v tosort (S pi) pr cdepth
                    ((pl, (pi - 1)%nat, cdepth) :: stack) false
      else
        let tosort := insercion v tosort pl pr in
        match stack with
        | [] => tosort
        | (pl', pr', d) :: stack' => tramos fuel' v tosort pl' pr' d stack' true
        end
  end.

Definition aquicksort (v : list Z) : list nat :=
  let num := length v in
  tramos (2 * num + 2) v (seq 0 num) 0 (num - 1)
         (2 * Z.log2 (Z.of_nat num)) [] true.

Definition nargsort (claves : list (option Z)) : list nat :=
  let pares := combine (seq 0 (length claves)) claves in
  let non_nan_idx :=
    omap (fun p : nat * option Z =>
            match snd p with Some _ => Some (fst p) | None => None end) pares in
  let non_nans := omap (fun c : option Z => c) claves in
  let nan_idx :=
    omap (fun p : nat * option Z =>
            match snd p with Some _ => None | None => Some (fst p) end) pares in
  (map (fun i => nth i non_nan_idx 0%nat) (aquicksort non_nans) ++ nan_idx)%list.

(** A decision procedure for the contract on a given column. *)
Definition es_permutacion_de_posiciones (l : list nat) (n : nat) : bool :=
  (length l =? n)%nat && forallb (fun i => existsb (Nat.eqb i) l) (seq 0 n).

Fixpoint esta_ordenada (l : list (option Z)) : bool :=
  match l with
  | a :: ((b :: _) as l') => fecha_leb a b && esta_ordenada l'
  | _ => true
  end.

Definition contrato_en_b (argsort : list (option Z) -> list nat)
           (claves : list (option Z)) : bool :=
  es_permutacion_de_posiciones (argsort claves) (length claves)
  && esta_ordenada (map (fun i => nth i claves None) (argsort claves)).

(* ================================================================= *)
(** ** limpiar_datos *)

Definition Clave : Type :=
  (option string * option string * option string * option Z)%type.

Definition clave (r : Fila) : Clave := (Encuesta r, Estrato r, Sexo r, Edad r).

Definition clave_eqb (a b : Clave) : bool :=
  match a, b with
  | (e1, s1, x1, d1), (e2, s2, x2, d2) =>
      option_eqb String.eqb e1 e2 && option_eqb String.eqb s1 s2
      && option_eqb String.eqb x1 x2 && option_eqb Z.eqb d1 d2
  end.

(** [df.drop_duplicates(subset=["Encuesta", "Estrato", "Sexo", "Edad"])] *)
Definition drop_duplicates (df : DataFrame) : DataFrame :=
  primeras clave_eqb clave [] df.

Definition notna {A : Type} (x : option A) : bool :=
  match x with Some _ => true | None => false end.

(** [df.dropna(subset=columnas_obligatorias)] *)
Definition dropna_obligatorias (df : DataFrame) : DataFrame :=
  filter (fun r => notna (Fecha r) && notna (ImagenDelCandidato r)
                   && notna (Voto r) && notna (VotoAnterior r)) df.

Definition estratos_validos : list (string * string) :=
  [("bajo", "Bajo"); ("medio", "Medio"); ("alto", "Alto")].

(** [Series.map(dict)]: a key missing from the dict gives a null. *)
Fixpoint dict_get (d : list (string * string)) (k : string) : option string :=
  match d with
  | [] => None
  | (k', v) :: d' => if String.eqb k k' then Some v else dict_get d' k
  end.

(** [pd.Categorical(values, categories=...)]: a value outside the categories
    becomes null. *)
Definition Categorical (categories : list string) (v : option string) : option string :=
  match v with
  | Some s => if existsb (String.eqb s) categories then Some s else None
  | None => None
  end.

Definition set_Estrato (v : option string) (r : Fila) : Fila :=
  mkFila (Fecha r) (Encuesta r) v (Sexo r) (Edad r) (NivelEducativo r)
         (IntegrantesHogar r) (ImagenDelCandidato r) (Voto r) (VotoAnterior r)
         (ImagenNormalizada r) (IntencionVoto r) (EdadRango r).

Definition set_Voto (v : option string) (r : Fila) : Fila :=
  mkFila (Fecha r) (Encuesta r) (Estrato r) (Sexo r) (Edad r) (NivelEducativo r)
         (IntegrantesHogar r) (ImagenDelCandidato r) v (VotoAnterior r)
         (ImagenNormalizada r) (IntencionVoto r) (EdadRango r).

Definition set_VotoAnterior (v : option string) (r : Fila) : Fila :=
  mkFila (Fecha r) (Encuesta r) (Estrato r) (Sexo r) (Edad r) (NivelEducativo r)
         (IntegrantesHogar r) (ImagenDelCandidato r) (Voto r) v
         (ImagenNormalizada r) (IntencionVoto r) (EdadRango r).

Definition set_ImagenNormalizada (v : option Q) (r : Fila) : Fila :=
  mkFila (Fecha r) (Encuesta r) (Estrato r) (Sexo r) (Edad r) (NivelEducativo r)
         (IntegrantesHogar r) (ImagenDelCandidato r) (Voto r) (VotoAnterior r)
         v (IntencionVoto r) (EdadRango r).

Definition set_IntencionVoto (v : option Z) (r : Fila) : Fila :=
  mkFila (Fecha r) (Encuesta r) (Estrato r) (Sexo r) (Edad r) (NivelEducativo r)
         (IntegrantesHogar r) (ImagenDelCandidato r) (Voto r) (VotoAnterior r)
         (ImagenNormalizada r) v (EdadRango r).

Definition set_EdadRango (v : option string) (r : Fila) : Fila :=
  mkFila (Fecha r) (Encuesta r) (Estrato r) (Sexo r) (Edad r) (NivelEducativo r)
         (IntegrantesHogar r) (ImagenDelCandidato r) (Voto r) (VotoAnterior r)
         (ImagenNormalizada r) (IntencionVoto r) v.

(** [pd.cut(x, bins, labels)] with right-closed intervals. *)
Fixpoint cut (bins : list Z) (labels : list string) (x : Z) : option string :=
  match bins, labels with
  | lo :: ((hi :: _) as bins'), lab :: labels' =>
      if (lo <? x) && (x <=? hi) then Some lab else cut bins' labels' x
  | _, _ => None
  end.

Definition bins_edad : list Z := [17; 29; 44; 59; 120].
Definition labels_edad : list string := ["18-29"; "30-44"; "45-59"; "60+"].

Definition normalizar_estrato (v : option string) : option string :=
  dict_get estratos_validos (lower (strip (astype_str "<NA>" v))).

Definition armonizar_voto (v : option string) : option string :=
  Some (title (strip (astype_str "nan" v))).

Definition bool_to_int (b : bool) : Z := if b then 1 else 0.

Definition limpiar_datos (df : DataFrame) (candidato_objetivo : string) : DataFrame :=
  let df := drop_duplicates df in
  let df := dropna_obligatorias df in
  (* stratum normalised to bajo/medio/alto *)
  let df := map (fun r => set_Estrato (normalizar_estrato (Estrato r)) r) df in
  let df := filter (fun r => notna (Estrato r)) df in
  let df := map (fun r => set_Estrato
                   (Categorical (map snd estratos_validos) (Estrato r)) r) df in
  (* vote values harmonised *)
  let df := map (fun r => set_Voto (armonizar_voto (Voto r)) r) df in
  let df := map (fun r => set_VotoAnterior (armonizar_voto (VotoAnterior r)) r) df in
  (* derived columns *)
  let df := map (fun r => set_ImagenNormalizada
                   (option_map (fun x => (clip x 0 (100 # 1) / (100 # 1))%Q)
                               (ImagenDelCandidato r)) r) df in
  let df := map (fun r => set_IntencionVoto
                   (Some (bool_to_int
                            (option_eqb String.eqb (Voto r)
                                        (Some (title candidato_objetivo))))) r) df in
  let df := map (fun r => set_EdadRango
                   (match Edad r with
                    | Some e => cut bins_edad labels_edad e
                    | None => None
                    end) r) df in
  df.

(** Row-wise view of [limpiar_datos]: what becomes of a row that survived
    [drop_duplicates]. *)
Definition limpiar_fila (candidato : string) (r : Fila) : option Fila :=
  match Fecha r, ImagenDelCandidato r, Voto r, VotoAnterior r,
        normalizar_estrato (Estrato r) with
  | Some f, Some img, Some v, Some va, Some e =>
      Some (mkFila (Some f) (Encuesta r) (Some e) (Sexo r) (Edad r)
                   (NivelEducativo r) (IntegrantesHogar r) (Some img)
                   (Some (title (strip v))) (Some (title (strip va)))
                   (Some (clip img 0 (100 # 1) / (100 # 1))%Q)
                   (Some (bool_to_int (String.eqb (title (strip v)) (title candidato))))
                   (match Edad r with
                    | Some e => cut bins_edad labels_edad e
                    | None => None
                    end))
  | _, _, _, _, _ => None
  end.

(* ================================================================= *)
(** ** Group-by aggregations *)

(** [df.groupby(keys)] with the defaults [sort=True] and [dropna=True]: the
    distinct non-null keys in ascending order, each with its rows in table
    order. *)
Definition groupby {K : Type} (eqb leb : K -> K -> bool)
           (key : Fila -> option K) (df : DataFrame) : list (K * list Fila) :=
  let claves := ordenar leb (primeras eqb (fun k => k) [] (omap key df)) in
  map (fun k => (k, filter (fun r => option_eqb eqb (key r) (Some k)) df)) claves.

Definition GrupoDemografico : Type := (Z * string * string)%type.

Definition clave_demografica (r : Fila) : option GrupoDemografico :=
  match Fecha r, Sexo r, EdadRango r with
  | Some f, Some s, Some e => Some (f, s, e)
  | _, _, _ => None
  end.

Definition grupo_eqb (a b : GrupoDemografico) : bool :=
  match a, b with
  | (f1, s1, e1), (f2, s2, e2) => (f1 =? f2) && String.eqb s1 s2 && String.eqb e1 e2
  end.

(** Position of a label among the categories of [Edad Rango]. *)
Fixpoint indice (labels : list string) (lab : string) : nat :=
  match labels with
  | [] => O
  | l :: labels' => if String.eqb lab l then O else S (indice labels' lab)
  end.

(** Date first, then the categories of [Sexo] (sorted text), then the bins. *)
Definition grupo_leb (a b : GrupoDemografico) : bool :=
  match a, b with
  | (f1, s1, e1), (f2, s2, e2) =>
      if f1 <? f2 then true
      else if f2 <? f1 then false
      else match String.compare s1 s2 with
           | Lt => true
           | Gt => false
           | Eq => (indice labels_edad e1 <=? indice labels_edad e2)%nat
           end
  end.

Record Indicador : Type := mkIndicador {
  iFecha : Z;
  iSexo : string;
  iEdadRango : string;
  n : Z;
  imagen_media : option Q;
  intencion_media : option Q
}.

(** The ["count"] aggregation: the non-null cells of the column. *)
Definition count {A : Type} (xs : list (option A)) : Z :=
  Z.of_nat (length (filter notna xs)).

Definition int_to_float (x : option Z) : option Q := option_map inject_Z x.

Definition indicadores_sociodemograficos (df : DataFrame) : list Indicador :=
  map (fun g : GrupoDemografico * list Fila =>
         match g with
         | ((f, s, e), filas) =>
             mkIndicador f s e
                         (count (map Encuesta filas))
                         (mean (map ImagenDelCandidato filas))
                         (mean (map (fun r => int_to_float (IntencionVoto r)) filas))
         end)
      (groupby grupo_eqb grupo_leb clave_demografica df).

(** The rows of a table that fall in a demographic group. *)
Definition filas_de_grupo (g : GrupoDemografico) (df : DataFrame) : list Fila :=
  filter (fun r => option_eqb grupo_eqb (clave_demografica r) (Some g)) df.

Definition grupo_de (i : Indicador) : GrupoDemografico :=
  (iFecha i, iSexo i, iEdadRango i).

(* ================================================================= *)
(** ** aplicar_funcion_ventana *)

Inductive Columna : Type :=
| ColNum (xs : list (option Q))
| ColFecha (xs : list (option Z))
| ColTexto (xs : list (option string)).

(** A table as the windower sees it: columns looked up by name. *)
Definition Tabla : Type := list (string * Columna).

Fixpoint getitem (df : Tabla) (columna : string) : Result Columna :=
  match df with
  | [] => Raise (KeyError columna)
  | (nombre, col) :: df' =>
      if String.eqb columna nombre then Ok col else getitem df' columna
  end.

Record Rolling : Type := mkRolling {
  obj : Columna;
  window : Z;
  min_periods : nat
}.

(** The last [k] elements of a list (all of it when it is shorter). *)
Definition ultimas {A : Type} (k : nat) (l : list A) : list A :=
  skipn (length l - k) l.

(** One pass over the column: the buffer holds the trailing window, each new
    row enters it and the oldest leaves once it holds [k] rows. *)
Fixpoint ventanas {A : Type} (k : nat) (buf : list A) (xs : list A) : list (list A) :=
  match xs with
  | [] => []
  | x :: xs' =>
      let buf' := ultimas k (buf ++ [x]) in
      buf' :: ventanas k buf' xs'
  end.

(** The bounds of the windows are 64-bit integers. *)
Definition INT64_MAX : Z := 9223372036854775807.

(** A reduction over the rolling windows: a column that is not numeric is
    refused, an empty column comes back as it is, and a window that does not
    fit 64 bits overflows when the window bounds are computed. *)
Definition rolling_apply (f : list Q -> Q) (r : Rolling) : Result (list (option Q)) :=
  match obj r with
  | ColNum [] => Ok []
  | ColNum xs =>
      if INT64_MAX <? window r then Raise OverflowError
      else Ok (map (reducir f (min_periods r))
                   (ventanas (Z.to_nat (window r)) [] xs))
  | _ => Raise (DataError "No numeric types to aggregate")
  end.

Definition rolling_mean : Rolling -> Result (list (option Q)) := rolling_apply media.
Definition rolling_median : Rolling -> Result (list (option Q)) := rolling_apply mediana.
Definition rolling_sum : Rolling -> Result (list (option Q)) := rolling_apply suma.

Definition aplicar_funcion_ventana (df : Tabla) (columna : string) (ventana : Z)
           (funcion : string) : Result (list (option Q)) :=
  if ventana <=? 0 then Raise (ValueError "La ventana debe ser un entero positivo")
  else
    col <- getitem df columna ;;
    let rolling := mkRolling col ventana 1 in
    if String.eqb funcion "mean" then rolling_mean rolling
    else if String.eqb funcion "median" then rolling_median rolling
    else if String.eqb funcion "sum" then rolling_sum rolling
    else Raise (ValueError "Función de ventana no soportada").

(** The window of the specification: the rows [max(0, i-N+1) .. i], both ends
    included. *)
Definition filas_ventana {A : Type} (N i : Z) (xs : list A) : list A :=
  let desde := Z.max 0 (i - N + 1) in
  firstn (Z.to_nat (i - desde + 1)) (skipn (Z.to_nat desde) xs).

(** The reduction a tag names. *)
Definition reduccion (funcion : string) : option (list Q -> Q) :=
  if String.eqb funcion "mean" then Some media
  else if String.eqb funcion "median" then Some mediana
  else if String.eqb funcion "sum" then Some suma
  else None.

(** Equality of cells up to the value of the rational. *)
Definition celda_eq (a b : option Q) : Prop :=
  match a, b with
  | Some x, Some y => (x == y)%Q
  | None, None => True
  | _, _ => False
  end.

(* ================================================================= *)
(** ** tracking_electoral *)

Record FilaDiaria : Type := mkDiaria {
  dFecha : Z;
  dIntencionVoto : option Q;
  dImagenMedia : option Q
}.

Record FilaTracking : Type := mkTracking {
  tFecha : Z;
  tIntencionVoto : option Q;
  tImagenMedia : option Q;
  TrackingSuavizado : option Q
}.

Definition intencion (r : Fila) : option Q := int_to_float (IntencionVoto r).

Definition serie_diaria (df : DataFrame) : list FilaDiaria :=
  map (fun g : Z * list Fila =>
         mkDiaria (fst g)
                  (mean (map intencion (snd g)))
                  (mean (map ImagenNormalizada (snd g))))
      (groupby Z.eqb Z.leb Fecha df).

Definition tabla_de_serie (s : list FilaDiaria) : Tabla :=
  [ ("Fecha", ColFecha (map (fun d => Some (dFecha d)) s));
    ("IntencionVoto", ColNum (map dIntencionVoto s));
    ("ImagenMedia", ColNum (map dImagenMedia s)) ].

(** Column assignment: the new series is aligned with the rows by position. *)
Definition asignar_suavizado (s : list FilaDiaria) (v : list (option Q)) : list FilaTracking :=
  map (fun p : FilaDiaria * option Q =>
         mkTracking (dFecha (fst p)) (dIntencionVoto (fst p)) (dImagenMedia (fst p)) (snd p))
      (combine s v).

Definition tracking_electoral (df : DataFrame) (config : TrackingConfig)
  : Result (list FilaTracking) :=
  let serie := serie_diaria df in
  suavizado <- aplicar_funcion_ventana (tabla_de_serie serie)
                 (columna_objetivo config) (ventana config) (tipo_resumen config) ;;
  Ok (asignar_suavizado serie suavizado).

(** The rows of a table dated [d]. *)
Definition filas_de_fecha (d : Z) (df : DataFrame) : list Fila :=
  filter (fun r => option_eqb Z.eqb (Fecha r) (Some d)) df.

(* ================================================================= *)
(** ** Sample data *)

(** 2024-01-01 as nanoseconds since the epoch. *)
Definition dia_2024_01_01 : Z := 1704067200000000000.

Definition fila_ejemplo (encuesta estrato voto : string) (imagen : Q) : Fila :=
  mkFila (Some dia_2024_01_01) (Some encuesta) (Some estrato) (Some "F") (Some 30)
         (Some "Secundario") (Some 3) (Some imagen) (Some voto) (Some "Candidato B")
         None None None.

(** Two input rows that differ only in how the stratum is written. *)
Definition filas_mismo_estrato : DataFrame :=
  [ fila_ejemplo "E1" " Bajo " "candidato a" (80 # 1);
    fila_ejemplo "E1" "bajo" "CANDIDATO B" (60 # 1) ].

(** Two respondents of different surveys, for the examples. *)
Definition filas_dos_votos : DataFrame :=
  [ fila_ejemplo "E1" "alto" "Candidate A" (80 # 1);
    fila_ejemplo "E2" "MEDIO" "Candidate B" (60 # 1) ].

(** A respondent whose survey identifier is missing from the file. *)
Definition fila_sin_encuesta : Fila :=
  mkFila (Some dia_2024_01_01) None (Some "bajo") (Some "F") (Some 30)
         (Some "Secundario") (Some 3) (Some (80 # 1)%Q) (Some "Candidato A")
         (Some "Candidato B") None None None.

(** Votes written with white space around or inside them. *)
Definition filas_votos_con_espacios : DataFrame :=
  [ fila_ejemplo "E1" "alto" "  candidate A " (80 # 1);
    fila_ejemplo "E2" "alto" "CANDIDATE  A" (60 # 1);
    fila_ejemplo "E3" "alto" "Candidate B " (40 # 1) ].

Definition un_dia : Z := 86400000000000.

Definition fila_fechada (dias : Z) (encuesta voto : string) (imagen : Q) : Fila :=
  mkFila (Some (dia_2024_01_01 + dias * un_dia)) (Some encuesta) (Some "medio")
         (Some "M") (Some 52) (Some "Terciario") (Some 2) (Some imagen)
         (Some voto) (Some "Candidato A") None None None.

(** Four respondents over three days, not in order of date. *)
Definition filas_tres_dias : DataFrame :=
  [ fila_fechada 2 "E1" "Candidato A" (90 # 1);
    fila_fechada 0 "E2" "Candidato B" (40 # 1);
    fila_fechada 1 "E3" "Candidato A" (70 # 1);
    fila_fechada 0 "E4" "candidato a" (20 # 1) ].

(** Three respondents on three different days, latest first. *)
Definition filas_fechas_distintas : DataFrame :=
  [ fila_fechada 2 "E1" "Candidato A" (90 # 1);
    fila_fechada 0 "E2" "Candidato B" (40 # 1);
    fila_fechada 1 "E3" "Candidato A" (70 # 1) ].



(** Respondents of two sexes and several ages over two days, in no order. *)
Definition fila_demografica (dias : Z) (encuesta sexo : string) (edad : Z) : Fila :=
  mkFila (Some (dia_2024_01_01 + dias * un_dia)) (Some encuesta) (Some "alto")
         (Some sexo) (Some edad) (Some "Terciario") (Some 2) (Some (50 # 1))
         (Some "Candidato A") (Some "Candidato A") None None None.

Definition filas_grupos : DataFrame :=
  [ fila_demografica 1 "E1" "M" 52;
    fila_demografica 0 "E2" "M" 61;
    fila_demografica 0 "E3" "F" 70;
    fila_demografica 0 "E4" "M" 25;
    fila_demografica 0 "E5" "F" 30;
    fila_demografica 0 "E6" "M" 19 ].


(* ================================================================= *)
(** ** Vocabulary for the properties *)

(** The median as statistics defines it: the middle value of the
    observations put in order, or the mean of the two middle values when
    their number is even. *)
Definition es_mediana (m : Q) (xs : list Q) : Prop :=
  exists s,
    Permutation s xs /\ Sorted Qle s
    /\ (if Nat.even (length s)
        then m == (nth (length s / 2 - 1) s 0 + nth (length s / 2) s 0) / (2 # 1)
        else m == nth (length s / 2) s 0)%Q.

(** Two texts that are equal up to letter case and surrounding white space. *)
Definition igual_sin_caja_ni_espacios (a b : string) : bool :=
  String.eqb (lower (strip a)) (lower (strip b)).

(** The first age of a bracket. *)
Definition edad_desde (rango : string) : Z :=
  if String.eqb rango "18-29" then 18
  else if String.eqb rango "30-44" then 30
  else if String.eqb rango "45-59" then 45
  else if String.eqb rango "60+" then 60
  else 0.

(** The order of the rows of the demographic summary: earlier date first;
    on one date, sex in alphabetical order; for one sex, younger bracket
    first. *)
Definition antes_en_resumen (a b : GrupoDemografico) : Prop :=
  match a, b with
  | (f1, s1, e1), (f2, s2, e2) =>
      f1 < f2
      \/ (f1 = f2
          /\ (String.ltb s1 s2 = true
              \/ (s1 = s2 /\ edad_desde e1 < edad_desde e2)))
  end.

(** The columns [limpiar_datos] never writes. *)
Definition datos_intactos (r : Fila)
  : option Z * option string * option string * option Z * option string
    * option Z * option Q :=
  (Fecha r, Encuesta r, Sexo r, Edad r, NivelEducativo r, IntegrantesHogar r,
   ImagenDelCandidato r).

(** A raw stratum that the dictionary of [limpiar_datos] recognises. *)
Definition estrato_valido (v : option string) : bool :=
  match v with
  | Some e =>
      let k := lower (strip e) in
      String.eqb k "bajo" || String.eqb k "medio" || String.eqb k "alto"
  | None => false
  end.

(** The rows that pass both [dropna] steps of [limpiar_datos]. *)
Definition fila_completa (r : Fila) : bool :=
  notna (Fecha r) && notna (ImagenDelCandidato r) && notna (Voto r)
  && notna (VotoAnterior r) && estrato_valido (Estrato r).

(** A rational between two bounds. *)
Definition entre (a b q : Q) : Prop := (a <= q <= b)%Q.

(** Every present cell of a column lies between two bounds. *)
Definition celdas_entre (a b : Q) (xs : list (option Q)) : Prop :=
  forall q, In (Some q) xs -> entre a b q.

(** Every cell of a column is present and lies between two bounds. *)
Definition completa_entre (a b : Q) (xs : list (option Q)) : Prop :=
  forall c, In c xs -> exists q, c = Some q /\ entre a b q.

(* ================================================================= *)
(** * Properties of the string methods *)

Lemma isspace_caso (b : bool) (c : ascii) :
  isspace (if b then lower_ascii c else upper_ascii c) = isspace c.
Proof. destruct b, c as [[] [] [] [] [] [] [] []]; reflexivity. Qed.

Lemma iscased_caso (b : bool) (c : ascii) :
  iscased (if b then lower_ascii c else upper_ascii c) = iscased c.
Proof. destruct b, c as [[] [] [] [] [] [] [] []]; reflexivity. Qed.

Lemma lower_ascii_idem (c : ascii) : lower_ascii (lower_ascii c) = lower_ascii c.
Proof. destruct c as [[] [] [] [] [] [] [] []]; reflexivity. Qed.

Lemma upper_ascii_idem (c : ascii) : upper_ascii (upper_ascii c) = upper_ascii c.
Proof. destruct c as [[] [] [] [] [] [] [] []]; reflexivity. Qed.

Lemma title_aux_idem : forall s b, title_aux b (title_aux b s) = title_aux b s.
Proof.
  induction s as [| c s IH]; intros b; simpl; [reflexivity |].
  rewrite iscased_caso, IH. f_equal.
  destruct b; [apply lower_ascii_idem | apply upper_ascii_idem].
Qed.

Lemma rstrip_title_aux : forall s b, rstrip (title_aux b s) = title_aux b (rstrip s).
Proof.
  induction s as [| c s IH]; intros b; simpl; [reflexivity |].
  rewrite IH, isspace_caso.
  destruct (rstrip s) as [| c' r]; simpl.
  - destruct (isspace c); reflexivity.
  - reflexivity.
Qed.

Lemma rstrip_idem : forall s, rstrip (rstrip s) = rstrip s.
Proof.
  induction s as [| c s IH]; simpl; [reflexivity |].
  destruct (rstrip s) as [| c' r] eqn:E.
  - destruct (isspace c) eqn:Ec; simpl; [reflexivity | now rewrite Ec].
  - change (rstrip (String c (String c' r))) with
      (match rstrip (String c' r) with
       | EmptyString => if isspace c then EmptyString else String c EmptyString
       | String _ _ as r' => String c r'
       end).
    now rewrite IH.
Qed.

Lemma lstrip_sin_espacio : forall s, sin_espacio_inicial (lstrip s).
Proof.
  induction s as [| c s IH]; simpl; [exact I |].
  destruct (isspace c) eqn:Ec; [exact IH | exact Ec].
Qed.

Lemma lstrip_fijo (s : string) : sin_espacio_inicial s -> lstrip s = s.
Proof. destruct s as [| c s]; simpl; [reflexivity | now intros ->]. Qed.

Lemma rstrip_sin_espacio (s : string) :
  sin_espacio_inicial s -> sin_espacio_inicial (rstrip s).
Proof.
  destruct s as [| c s]; simpl; [exact id |].
  intros Ec. destruct (rstrip s); [rewrite Ec |]; exact Ec.
Qed.

Lemma title_aux_sin_espacio (b : bool) (s : string) :
  sin_espacio_inicial s -> sin_espacio_inicial (title_aux b s).
Proof. destruct s as [| c s]; simpl; [exact id | now rewrite isspace_caso]. Qed.

(** Stripping and title-casing once more changes nothing. *)
Lemma armonizar_idem (v : string) :
  title (strip (title (strip v))) = title (strip v).
Proof.
  assert (Hs : strip (title (strip v)) = title (strip v)).
  { unfold strip at 1, title.
    rewrite lstrip_fijo, rstrip_title_aux.
    - unfold strip. now rewrite rstrip_idem.
    - apply title_aux_sin_espacio, rstrip_sin_espacio, lstrip_sin_espacio. }
  rewrite Hs. apply title_aux_idem.
Qed.

(* ================================================================= *)
(** * Properties of first occurrences *)

Section Primeras.
Context {A K : Type} (eqb : K -> K -> bool) (key : A -> K).
Hypothesis eqb_eq : forall a b, eqb a b = true <-> a = b.

Lemma existsb_eqb (k : K) (l : list K) : existsb (eqb k) l = true <-> In k l.
Proof.
  rewrite existsb_exists. split.
  - intros (x & Hx & E). apply eqb_eq in E. now subst.
  - intros H. exists k. split; [exact H | now apply eqb_eq].
Qed.

Lemma primeras_In (r : A) :
  forall l vistas, In r (primeras eqb key vistas l) -> In r l.
Proof.
  induction l as [| a l IH]; intros vistas; simpl; [exact id |].
  destruct (existsb (eqb (key a)) vistas).
  - intros H. right. eapply IH, H.
  - intros [-> | H]; [now left | right; eapply IH, H].
Qed.

Lemma primeras_nuevas (r : A) :
  forall l vistas, In r (primeras eqb key vistas l) -> ~ In (key r) vistas.
Proof.
  induction l as [| a l IH]; intros vistas; simpl; [contradiction |].
  destruct (existsb (eqb (key a)) vistas) eqn:E.
  - apply IH.
  - intros [-> | H].
    + rewrite <- existsb_eqb, E. discriminate.
    + apply IH in H. intros Hin. apply H. now right.
Qed.

Lemma primeras_NoDup :
  forall l vistas, NoDup (map key (primeras eqb key vistas l)).
Proof.
  induction l as [| a l IH]; intros vistas; simpl; [constructor |].
  destruct (existsb (eqb (key a)) vistas).
  - apply IH.
  - simpl. constructor; [| apply IH].
    rewrite in_map_iff. intros (r & Er & Hr).
    apply primeras_nuevas in Hr. apply Hr. left. now symmetry.
Qed.

(** A row is kept exactly when no earlier row of the table (and no key seen
    before) has its key. *)
Lemma primeras_primera (r : A) :
  forall l vistas,
    In r (primeras eqb key vistas l) <->
    exists pre post, l = (pre ++ r :: post)%list
                     /\ ~ In (key r) vistas /\ ~ In (key r) (map key pre).
Proof.
  induction l as [| a l IH]; intros vistas; simpl.
  - split; [contradiction |]. intros ([| ? ?] & post & E & _); discriminate.
  - destruct (existsb (eqb (key a)) vistas) eqn:E.
    + rewrite IH. apply existsb_eqb in E. split.
      * intros (pre & post & -> & Hv & Hp).
        exists (a :: pre), post. repeat split; [exact Hv |].
        simpl. intros [Ea | Hin]; [| now apply Hp].
        apply Hv. now rewrite <- Ea.
      * intros ([| b pre] & post & El & Hv & Hp); simpl in El.
        -- injection El as -> _. contradiction.
        -- injection El as -> ->. exists pre, post.
           repeat split; [exact Hv |]. intros Hin. apply Hp. now right.
    + assert (Ha : ~ In (key a) vistas).
      { rewrite <- existsb_eqb, E. discriminate. }
      split.
      * intros [-> | H].
        -- exists [], l. repeat split; [exact Ha | exact id].
        -- apply IH in H. destruct H as (pre & post & -> & Hv & Hp).
           exists (a :: pre), post. repeat split.
           ++ intros Hin. apply Hv. now right.
           ++ simpl. intros [Ea | Hin]; [| now apply Hp].
              apply Hv. left. exact Ea.
      * intros ([| b pre] & post & El & Hv & Hp); simpl in El.
        -- injection El as -> _. now left.
        -- injection El as -> ->. right. apply IH. exists pre, post.
           repeat split.
           ++ simpl. intros [Ea | Hin]; [| now apply Hv].
              apply Hp. left. exact Ea.
           ++ intros Hin. apply Hp. now right.
Qed.

(** Nothing is dropped from a table whose keys are new and distinct. *)
Lemma primeras_sin_repetidos :
  forall l vistas,
    NoDup (map key l) ->
    (forall a, In a l -> ~ In (key a) vistas) ->
    primeras eqb key vistas l = l.
Proof.
  induction l as [| a l IH]; intros vistas Hnd Hv; simpl; [reflexivity |].
  simpl in Hnd. apply NoDup_cons_iff in Hnd. destruct Hnd as [Ha Hnd].
  destruct (existsb (eqb (key a)) vistas) eqn:E.
  - apply existsb_eqb in E. exfalso. apply (Hv a); [now left | exact E].
  - f_equal. apply IH; [exact Hnd |].
    intros b Hb [Eb | Hin].
    + apply Ha. rewrite Eb. now apply in_map.
    + apply (Hv b); [now right | exact Hin].
Qed.
End Primeras.

Lemma option_eqb_eq {A : Type} (eqb : A -> A -> bool) :
  (forall a b, eqb a b = true <-> a = b) ->
  forall x y : option A, option_eqb eqb x y = true <-> x = y.
Proof.
  intros H [a |] [b |]; simpl; try (split; (discriminate || reflexivity)).
  rewrite H. split; [now intros -> | now intros [= ->]].
Qed.

Lemma clave_eqb_eq (a b : Clave) : clave_eqb a b = true <-> a = b.
Proof.
  destruct a as [[[e1 s1] x1] d1], b as [[[e2 s2] x2] d2]. unfold clave_eqb.
  rewrite !andb_true_iff, !(option_eqb_eq String.eqb String.eqb_eq),
    (option_eqb_eq Z.eqb Z.eqb_eq).
  split.
  - intros [[[-> ->] ->] ->]. reflexivity.
  - intros [= -> -> -> ->]. auto.
Qed.

(* ================================================================= *)
(** * Properties of the cleaner *)

Lemma in_omap {A B : Type} (f : A -> option B) (b : B) :
  forall l, In b (omap f l) <-> exists a, In a l /\ f a = Some b.
Proof.
  induction l as [| a l IH]; simpl.
  - split; [contradiction | now intros (? & [] & _)].
  - destruct (f a) as [b' |] eqn:E; simpl; rewrite IH; split.
    + intros [<- | (x & Hx & Ex)]; [exists a; auto | exists x; auto].
    + intros (x & [<- | Hx] & Ex).
      * left. congruence.
      * right. exists x. auto.
    + intros (x & Hx & Ex). exists x. auto.
    + intros (x & [<- | Hx] & Ex); [congruence | exists x; auto].
Qed.

Lemma omap_fijo {A : Type} (f : A -> option A) :
  forall l, (forall a, In a l -> f a = Some a) -> omap f l = l.
Proof.
  induction l as [| a l IH]; intros H; simpl; [reflexivity |].
  rewrite (H a) by now left. f_equal. apply IH. intros b Hb. apply H. now right.
Qed.

Lemma dict_get_estratos (k e : string) :
  dict_get estratos_validos k = Some e ->
  e = "Bajo" \/ e = "Medio" \/ e = "Alto".
Proof.
  unfold estratos_validos. simpl.
  destruct (String.eqb k "bajo"); [intros [= <-]; auto |].
  destruct (String.eqb k "medio"); [intros [= <-]; auto |].
  destruct (String.eqb k "alto"); [intros [= <-]; auto | discriminate].
Qed.

(** The column-wise steps after [drop_duplicates] act row by row. *)
Lemma limpiar_datos_por_filas (df : DataFrame) (candidato : string) :
  limpiar_datos df candidato = omap (limpiar_fila candidato) (drop_duplicates df).
Proof.
  unfold limpiar_datos, dropna_obligatorias.
  induction (drop_duplicates df) as [| r l IH]; [reflexivity |].
  cbn [filter omap]. unfold limpiar_fila at 1.
  destruct r as [f enc est sx ed ne ih img v va im iv er].
  cbn [Fecha ImagenDelCandidato Voto VotoAnterior Estrato].
  destruct f as [f |]; [| exact IH].
  destruct img as [img |]; [| exact IH].
  destruct v as [v |]; [| exact IH].
  destruct va as [va |]; [| exact IH].
  cbn [notna andb map filter set_Estrato Estrato].
  destruct (normalizar_estrato est) as [e |] eqn:Ee; [| exact IH].
  cbn [notna map]. rewrite IH. f_equal.
  unfold normalizar_estrato in Ee. apply dict_get_estratos in Ee.
  destruct Ee as [-> | [-> | ->]]; reflexivity.
Qed.

Lemma limpiar_datos_In df candidato r :
  In r (limpiar_datos df candidato) ->
  exists r0, In r0 df /\ limpiar_fila candidato r0 = Some r.
Proof.
  rewrite limpiar_datos_por_filas, in_omap. intros (r0 & Hr0 & E).
  exists r0. split; [| exact E].
  unfold drop_duplicates in Hr0. eapply primeras_In, Hr0.
Qed.

Lemma clip_rango (x lo hi : Q) :
  (lo <= hi)%Q -> (lo <= clip x lo hi <= hi)%Q.
Proof.
  intros H. unfold clip.
  destruct (Qle_bool x lo) eqn:E1.
  - split; [apply Qle_refl | exact H].
  - destruct (Qle_bool hi x) eqn:E2.
    + split; [exact H | apply Qle_refl].
    + split; apply Qlt_le_weak, Qnot_le_lt; rewrite <- Qle_bool_iff; congruence.
Qed.



(** Title-casing only looks at the letters up to their case. *)
Lemma title_aux_lower : forall s b, title_aux b (lower s) = title_aux b s.
Proof.
  induction s as [| c s IH]; intros b; simpl; [reflexivity |].
  rewrite <- IH. f_equal.
  - destruct b, c as [[] [] [] [] [] [] [] []]; reflexivity.
  - f_equal. destruct c as [[] [] [] [] [] [] [] []]; reflexivity.
Qed.

Lemma title_insensible (s t : string) : lower s = lower t -> title s = title t.
Proof.
  intros H. unfold title.
  now rewrite <- (title_aux_lower s), <- (title_aux_lower t), H.
Qed.

Lemma lower_title_aux : forall s b, lower (title_aux b s) = lower s.
Proof.
  induction s as [| c s IH]; intros b; simpl; [reflexivity |].
  rewrite IH. f_equal.
  destruct b, c as [[] [] [] [] [] [] [] []]; reflexivity.
Qed.

(** Title-casing two texts gives the same result exactly when they are equal
    up to letter case. *)
Lemma title_eq_lower (s t : string) : title s = title t <-> lower s = lower t.
Proof.
  split; [| apply title_insensible].
  intros H. apply (f_equal lower) in H. unfold title in H.
  now rewrite !lower_title_aux in H.
Qed.

(** C6, as stated, fails: the vote "Candidate A" equals the target
    "candidate a " up to letter case and surrounding white space, yet its
    vote intention is 0: line 90 title-cases the target without stripping
    it. *)
Lemma intencion_de_voto_sensible_a_espacios :
  igual_sin_caja_ni_espacios "Candidate A" "candidate a " = true
  /\ map (fun r => (Voto r, IntencionVoto r))
         (limpiar_datos [fila_ejemplo "E1" "alto" "Candidate A" (80 # 1)]
                        "candidate a ")
     = [(Some "Candidate A", Some 0)].
Proof. split; vm_compute; reflexivity. Qed.

(** C6, amended: in every cleaned row the vote intention is 1 exactly when
    the row's vote, stripped and title-cased, equals the title-cased target
    name, that is when the stripped vote and the target as it is written are
    equal up to letter case, and 0 otherwise.  White space around the vote is
    ignored; white space around the target, or other white space inside
    either, is not.  With target "candidate a", the votes "Candidate A" and
    "  candidate A " give 1, "Candidate B" and "CANDIDATE  A" give 0. *)
Theorem intencion_de_voto :
  (forall df candidato r,
      In r (limpiar_datos df candidato) ->
      exists r0 v,
        In r0 df /\ Voto r0 = Some v
        /\ Voto r = Some (title (strip v))
        /\ (IntencionVoto r = Some 1 <-> title (strip v) = title candidato)
        /\ (IntencionVoto r = Some 1 <-> lower (strip v) = lower candidato)
        /\ (IntencionVoto r = Some 0 <-> title (strip v) <> title candidato))
  /\ map (fun r => (Voto r, IntencionVoto r))
         (limpiar_datos filas_dos_votos "candidate a")
     = [(Some "Candidate A", Some 1); (Some "Candidate B", Some 0)]
  /\ map (fun r => (Voto r, IntencionVoto r))
         (limpiar_datos filas_votos_con_espacios "candidate a")
     = [(Some "Candidate A", Some 1); (Some "Candidate  A", Some 0);
        (Some "Candidate B", Some 0)].
Proof.
  split; [| split; vm_compute; reflexivity].
  intros df candidato r Hr.
  apply limpiar_datos_In in Hr. destruct Hr as (r0 & Hr0 & E).
  unfold limpiar_fila in E.
  destruct (Fecha r0), (ImagenDelCandidato r0), (Voto r0) as [v |] eqn:Ev,
    (VotoAnterior r0), (normalizar_estrato (Estrato r0)); try discriminate.
  injection E as <-. cbn. exists r0, v.
  split; [exact Hr0 |]. split; [exact Ev |]. split; [reflexivity |].
  rewrite <- title_eq_lower.
  destruct (String.eqb_spec (title (strip v)) (title candidato)) as [Heq | Hne];
    cbn; repeat split; intros; try congruence; try discriminate.
Qed.

Lemma intencion_de_voto_witness :
  exists r r0 v,
    In r (limpiar_datos filas_votos_con_espacios "candidate a")
    /\ In r0 filas_votos_con_espacios /\ Voto r0 = Some v
    /\ Voto r = Some (title (strip v))
    /\ (IntencionVoto r = Some 1 <-> lower (strip v) = lower "candidate a").
Proof.
  assert (Hin : In (hd fila_sin_encuesta
                       (limpiar_datos filas_votos_con_espacios "candidate a"))
                   (limpiar_datos filas_votos_con_espacios "candidate a")).
  { vm_compute. left. reflexivity. }
  destruct (proj1 intencion_de_voto _ _ _ Hin)
    as (r0 & v & H0 & Hv & Hr & _ & H1 & _).
  eexists. exists r0, v. split; [exact Hin |]. auto.
Defined.

(** C7, as stated, fails: two rows of one survey whose strata are written
    " Bajo " and "bajo" are both kept, and carry the same stratum afterwards. *)
Lemma limpiar_datos_claves_repetidas :
  ~ NoDup (map clave (limpiar_datos filas_mismo_estrato "Candidato A")).
Proof.
  intros H. vm_compute in H. inversion H as [| k l Hk _]. apply Hk. now left.
Qed.

(** C7, amended: the rows that reach the later steps are the first
    occurrences, in input order, of each (Encuesta, Estrato as written, Sexo,
    Edad) combination of the input, so that combination never occurs twice
    among them; the cleaned table holds the rows made from those that pass
    the later filters. *)
Theorem limpiar_datos_primeras_apariciones df candidato :
  limpiar_datos df candidato = omap (limpiar_fila candidato) (drop_duplicates df)
  /\ NoDup (map clave (drop_duplicates df))
  /\ (forall r,
         In r (drop_duplicates df) <->
         exists pre post,
           df = (pre ++ r :: post)%list /\ ~ In (clave r) (map clave pre)).
Proof.
  split; [apply limpiar_datos_por_filas |].
  split; [apply primeras_NoDup, clave_eqb_eq |].
  intros r. unfold drop_duplicates.
  rewrite (primeras_primera clave_eqb clave clave_eqb_eq). split.
  - intros (pre & post & E & _ & Hp). exists pre, post. auto.
  - intros (pre & post & E & Hp). exists pre, post. auto.
Qed.

Lemma limpiar_datos_primeras_apariciones_witness :
  In (fila_ejemplo "E1" " Bajo " "candidato a" (80 # 1))
     (drop_duplicates filas_mismo_estrato)
  /\ NoDup (map clave (drop_duplicates filas_mismo_estrato)).
Proof.
  destruct (limpiar_datos_primeras_apariciones filas_mismo_estrato "Candidato A")
    as (_ & Hnd & Hin).
  split; [| exact Hnd].
  apply Hin. exists [], (tl filas_mismo_estrato).
  split; [reflexivity | intros []].
Defined.

Lemma limpiar_fila_idem candidato r0 r :
  limpiar_fila candidato r0 = Some r -> limpiar_fila candidato r = Some r.
Proof.
  unfold limpiar_fila at 1.
  destruct (Fecha r0), (ImagenDelCandidato r0), (Voto r0) as [v |],
    (VotoAnterior r0) as [va |], (normalizar_estrato (Estrato r0)) as [e |] eqn:Ee;
    try discriminate.
  intros [= <-]. unfold limpiar_fila.
  cbn [Fecha ImagenDelCandidato Voto VotoAnterior Estrato Encuesta Sexo Edad
       NivelEducativo IntegrantesHogar].
  assert (He : normalizar_estrato (Some e) = Some e).
  { apply dict_get_estratos in Ee. destruct Ee as [-> | [-> | ->]]; reflexivity. }
  rewrite He, !armonizar_idem. reflexivity.
Qed.

(** C4, as stated, fails: cleaning the cleaned table of the two rows above
    drops the second one, whose key now repeats the first. *)
Lemma limpiar_datos_no_idempotente :
  limpiar_datos (limpiar_datos filas_mismo_estrato "Candidato A") "Candidato A"
  <> limpiar_datos filas_mismo_estrato "Candidato A".
Proof.
  intros H. apply (f_equal (@length Fila)) in H. vm_compute in H. discriminate.
Qed.

(** What a second cleaning does: it only drops the rows whose (Encuesta,
    Estrato, Sexo, Edad) repeats an earlier row of the cleaned table. *)
Lemma limpiar_datos_dos_veces df candidato :
  limpiar_datos (limpiar_datos df candidato) candidato
  = drop_duplicates (limpiar_datos df candidato).
Proof.
  rewrite (limpiar_datos_por_filas (limpiar_datos df candidato)).
  apply omap_fijo. intros r Hr.
  unfold drop_duplicates in Hr. apply primeras_In in Hr.
  apply limpiar_datos_In in Hr. destruct Hr as (r0 & _ & E).
  eapply limpiar_fila_idem, E.
Qed.

(** C4, amended: when no two rows of the cleaned table share (Encuesta,
    Estrato, Sexo, Edad), cleaning it again with the same target candidate
    gives the identical table. *)
Theorem limpiar_datos_idempotente df candidato :
  NoDup (map clave (limpiar_datos df candidato)) ->
  limpiar_datos (limpiar_datos df candidato) candidato
  = limpiar_datos df candidato.
Proof.
  intros Hnd. rewrite limpiar_datos_dos_veces. unfold drop_duplicates.
  apply (primeras_sin_repetidos clave_eqb clave clave_eqb_eq); [exact Hnd |].
  intros a _ [].
Qed.

Lemma limpiar_datos_idempotente_witness :
  NoDup (map clave (limpiar_datos filas_dos_votos "Candidate A"))
  /\ limpiar_datos (limpiar_datos filas_dos_votos "Candidate A") "Candidate A"
     = limpiar_datos filas_dos_votos "Candidate A".
Proof.
  assert (Hnd : NoDup (map clave (limpiar_datos filas_dos_votos "Candidate A"))).
  { cbv. constructor.
    - intros [H | []]. discriminate H.
    - constructor; [intros [] | constructor]. }
  split; [exact Hnd | exact (limpiar_datos_idempotente _ _ Hnd)].
Defined.

(* ================================================================= *)
(** * Properties of the insertion sort *)

Section Ordenar.
Context {A : Type} (leb : A -> A -> bool).

Lemma insertar_perm (x : A) : forall l, Permutation (insertar leb x l) (x :: l).
Proof.
  induction l as [| y l IH]; simpl; [reflexivity |].
  destruct (leb x y); [reflexivity |].
  rewrite IH. apply perm_swap.
Qed.

Lemma ordenar_perm : forall l, Permutation (ordenar leb l) l.
Proof.
  induction l as [| x l IH]; simpl; [reflexivity |].
  now rewrite insertar_perm, IH.
Qed.
End Ordenar.

Section Ordenar_Sorted.
Context {A : Type} (leb : A -> A -> bool) (R : A -> A -> Prop).
Hypothesis leb_true : forall x y, leb x y = true -> R x y.
Hypothesis leb_false : forall x y, leb x y = false -> R y x.

Lemma insertar_Sorted (x : A) :
  forall l, Sorted R l -> Sorted R (insertar leb x l).
Proof.
  induction l as [| y l IH]; intros Hs; simpl.
  - repeat constructor.
  - destruct (leb x y) eqn:E.
    + constructor; [exact Hs |]. constructor. now apply leb_true.
    + inversion Hs as [| ? ? Hs' Hhd]; subst.
      constructor; [now apply IH |].
      destruct l as [| z l]; simpl.
      * constructor. now apply leb_false.
      * destruct (leb x z); constructor.
        -- now apply leb_false.
        -- now inversion Hhd.
Qed.

Lemma ordenar_Sorted : forall l, Sorted R (ordenar leb l).
Proof.
  induction l as [| x l IH]; simpl; [constructor |].
  now apply insertar_Sorted.
Qed.
End Ordenar_Sorted.

(* ================================================================= *)
(** * Properties of the windower *)

Section Ventanas.
Context {A : Type}.

Lemma ultimas_app (k : nat) (a b : list A) :
  ultimas k (ultimas k a ++ b) = ultimas k (a ++ b).
Proof.
  unfold ultimas.
  rewrite !length_app, length_skipn.
  destruct (Nat.le_gt_cases (length a) k) as [Hle | Hgt].
  - replace (length a - k)%nat with 0%nat by lia. simpl.
    f_equal. lia.
  - assert (E : (skipn (length a - k) a ++ b)%list = skipn (length a - k) (a ++ b)).
    { rewrite skipn_app.
      replace (length a - k - length a)%nat with 0%nat by lia. reflexivity. }
    rewrite E, skipn_skipn. f_equal. lia.
Qed.

(** The buffer after row [i] holds the last [k] of the rows read so far. *)
Lemma ventanas_nth (k : nat) :
  forall (xs buf : list A) (i : nat),
    (i < length xs)%nat ->
    nth i (ventanas k buf xs) [] = ultimas k (buf ++ firstn (S i) xs).
Proof.
  induction xs as [| x xs IH]; intros buf i Hi; simpl in Hi; [lia |].
  destruct i as [| j].
  - reflexivity.
  - cbn [ventanas nth]. rewrite IH by lia.
    rewrite ultimas_app, <- app_assoc. reflexivity.
Qed.

Lemma length_ventanas (k : nat) :
  forall (xs buf : list A), length (ventanas k buf xs) = length xs.
Proof.
  induction xs as [| x xs IH]; intros buf; simpl; [reflexivity |].
  now rewrite IH.
Qed.

(** The trailing buffer is the window of rows [max(0, i-N+1) .. i]. *)
Lemma ultimas_filas_ventana (N : Z) (xs : list A) (i : nat) :
  0 < N -> (i < length xs)%nat ->
  ultimas (Z.to_nat N) (firstn (S i) xs) = filas_ventana N (Z.of_nat i) xs.
Proof.
  intros HN Hi. unfold ultimas, filas_ventana.
  rewrite length_firstn, firstn_skipn_comm.
  replace (Nat.min (S i) (length xs)) with (S i) by lia.
  replace (Z.to_nat (Z.max 0 (Z.of_nat i - N + 1))) with (S i - Z.to_nat N)%nat by lia.
  do 2 f_equal. lia.
Qed.
End Ventanas.

Lemma reduccion_casos (funcion : string) (f : list Q -> Q) :
  reduccion funcion = Some f ->
  (funcion = "mean" /\ f = media) \/ (funcion = "median" /\ f = mediana)
  \/ (funcion = "sum" /\ f = suma).
Proof.
  unfold reduccion.
  destruct (String.eqb_spec funcion "mean") as [-> | _];
    [intros [= <-]; auto |].
  destruct (String.eqb_spec funcion "median") as [-> | _];
    [intros [= <-]; auto |].
  destruct (String.eqb_spec funcion "sum") as [-> | _];
    [intros [= <-]; auto | discriminate].
Qed.

Lemma rolling_apply_ok (g : list Q -> Q) (xs : list (option Q)) (N : Z) :
  N <= INT64_MAX \/ xs = [] ->
  rolling_apply g (mkRolling (ColNum xs) N 1)
  = Ok (map (reducir g 1) (ventanas (Z.to_nat N) [] xs)).
Proof.
  intros Hb. unfold rolling_apply. cbn [obj window min_periods].
  destruct xs as [| x xs]; [reflexivity |].
  destruct (Z.ltb_spec INT64_MAX N); [| reflexivity].
  destruct Hb; [lia | discriminate].
Qed.

(** With a positive window that fits 64 bits, a numeric column and a
    supported tag the windower maps the reduction over the trailing
    buffers. *)
Lemma aplicar_funcion_ventana_ok df columna N funcion xs f :
  0 < N ->
  N <= INT64_MAX \/ xs = [] ->
  getitem df columna = Ok (ColNum xs) ->
  reduccion funcion = Some f ->
  aplicar_funcion_ventana df columna N funcion
  = Ok (map (reducir f 1) (ventanas (Z.to_nat N) [] xs)).
Proof.
  intros HN Hb Hcol Hf. unfold aplicar_funcion_ventana.
  destruct (Z.leb_spec N 0) as [? | _]; [lia |].
  rewrite Hcol. cbn [bind].
  destruct (reduccion_casos _ _ Hf) as [[-> ->] | [[-> ->] | [-> ->]]];
    now apply rolling_apply_ok.
Qed.

(** The reductions of a single observation give that observation back. *)
Lemma reduccion_de_una funcion f (q : Q) :
  reduccion funcion = Some f -> (f [q] == q)%Q.
Proof.
  intros Hf.
  destruct (reduccion_casos _ _ Hf) as [[_ ->] | [[_ ->] | [_ ->]]].
  - unfold media, suma. simpl. field.
  - reflexivity.
  - unfold suma. simpl. ring.
Qed.

Lemma Qle_bool_false (x y : Q) : Qle_bool x y = false -> (y <= x)%Q.
Proof.
  intros H. apply Qlt_le_weak, Qnot_le_lt. rewrite <- Qle_bool_iff. congruence.
Qed.

Lemma mediana_es_mediana (xs : list Q) : es_mediana (mediana xs) xs.
Proof.
  exists (ordenar Qle_bool xs). split; [apply ordenar_perm |]. split.
  - apply ordenar_Sorted; [apply Qle_bool_iff | apply Qle_bool_false].
  - unfold mediana. destruct (Nat.even _); reflexivity.
Qed.

Lemma media_por_cantidad (xs : list Q) :
  xs <> [] -> (media xs * inject_Z (Z.of_nat (length xs)) == suma xs)%Q.
Proof.
  intros Hne. unfold media. field.
  destruct xs; [contradiction |]. unfold Qeq. simpl. lia.
Qed.

(** The observations of a window are its present cells, in order; with
    [min_periods=1] the reduction is null only when there is none. *)
Lemma reducir_observaciones (f : list Q -> Q) (w : list (option Q)) :
  exists obs,
    map Some obs = filter (fun c : option Q => notna c) w
    /\ reducir f 1 w = match obs with [] => None | _ :: _ => Some (f obs) end.
Proof.
  exists (observaciones w). split.
  - unfold observaciones. induction w as [| [q |] w IH]; simpl;
      [reflexivity | now rewrite IH | exact IH].
  - unfold reducir. destruct (observaciones w); reflexivity.
Qed.

(** C1, as stated, fails: 2^63 is a positive window size, and with it the
    windower returns nothing for the series 1, 2, 3, 4: the bounds of the
    windows no longer fit the 64-bit integers [rolling] computes them in, and
    the call ends in [OverflowError]. *)
Lemma aplicar_funcion_ventana_desborda :
  0 < 2 ^ 63
  /\ aplicar_funcion_ventana
       [("x", ColNum [Some 1%Q; Some (2 # 1)%Q; Some (3 # 1)%Q; Some (4 # 1)%Q])]
       "x" (2 ^ 63) "mean"
     = Raise OverflowError.
Proof. split; vm_compute; reflexivity. Qed.

(** C1, amended: for a window [N] from 1 to 2^63-1 and one of the tags mean, median
    and sum, the windower returns one cell per row of the (numeric) column,
    and the cell of row [i] is the named reduction over the present cells of
    rows [max(0, i-N+1) .. i] (null when none is present); so row 0 carries
    the raw value of row 0 and row [k < N-1] the reduction over rows
    [0 .. k].  The reductions are the sum, the sum divided by the number of
    observations, and the median.  The series 1, 2, 3, 4 with window 2 gives
    1, 3/2, 5/2, 7/2 for the mean and 1, 3, 5, 7 for the sum; the series
    3, 1, 2, 5 with window 3 gives the medians 3, 2, 2, 2. *)
Theorem aplicar_funcion_ventana_correcta :
  ((suma [] == 0)%Q /\ forall x xs, (suma (x :: xs) == x + suma xs)%Q)
  /\ (forall xs, xs <> [] ->
                 (media xs * inject_Z (Z.of_nat (length xs)) == suma xs)%Q)
  /\ (forall xs, es_mediana (mediana xs) xs)
  /\ (forall df columna N funcion xs f,
         0 < N <= INT64_MAX ->
         getitem df columna = Ok (ColNum xs) ->
         (funcion = "mean" /\ f = media) \/ (funcion = "median" /\ f = mediana)
         \/ (funcion = "sum" /\ f = suma) ->
         exists serie,
           aplicar_funcion_ventana df columna N funcion = Ok serie
           /\ length serie = length xs
           /\ (forall i, (i < length xs)%nat ->
                  exists obs,
                    map Some obs
                    = filter (fun c : option Q => notna c)
                             (filas_ventana N (Z.of_nat i) xs)
                    /\ nth i serie None
                       = match obs with [] => None | _ :: _ => Some (f obs) end)
           /\ celda_eq (nth 0 serie None) (nth 0 xs None)
           /\ (forall k, (k < length xs)%nat -> Z.of_nat k < N - 1 ->
                  exists obs,
                    map Some obs
                    = filter (fun c : option Q => notna c) (firstn (S k) xs)
                    /\ nth k serie None
                       = match obs with [] => None | _ :: _ => Some (f obs) end))
  /\ (exists serie,
         aplicar_funcion_ventana
           [("x", ColNum [Some 1%Q; Some (2 # 1)%Q; Some (3 # 1)%Q; Some (4 # 1)%Q])]
           "x" 2 "mean" = Ok serie
         /\ map (option_map Qred) serie
            = [Some 1%Q; Some (3 # 2)%Q; Some (5 # 2)%Q; Some (7 # 2)%Q])
  /\ (exists serie,
         aplicar_funcion_ventana
           [("x", ColNum [Some (3 # 1)%Q; Some 1%Q; Some (2 # 1)%Q; Some (5 # 1)%Q])]
           "x" 3 "median" = Ok serie
         /\ map (option_map Qred) serie
            = [Some (3 # 1)%Q; Some (2 # 1)%Q; Some (2 # 1)%Q; Some (2 # 1)%Q])
  /\ (exists serie,
         aplicar_funcion_ventana
           [("x", ColNum [Some 1%Q; Some (2 # 1)%Q; Some (3 # 1)%Q; Some (4 # 1)%Q])]
           "x" 2 "sum" = Ok serie
         /\ map (option_map Qred) serie
            = [Some 1%Q; Some (3 # 1)%Q; Some (5 # 1)%Q; Some (7 # 1)%Q]).
Proof.
  split; [split; [reflexivity | intros; reflexivity] |].
  split; [exact media_por_cantidad |].
  split; [exact mediana_es_mediana |].
  split; [| split; [| split]];
    try (eexists; split; vm_compute; reflexivity).
  intros df columna N funcion xs f [HN HM] Hcol Htag.
  assert (Hf : reduccion funcion = Some f).
  { destruct Htag as [[-> ->] | [[-> ->] | [-> ->]]]; reflexivity. }
  assert (Hnth : forall i, (i < length xs)%nat ->
            nth i (map (reducir f 1) (ventanas (Z.to_nat N) [] xs)) None
            = reducir f 1 (filas_ventana N (Z.of_nat i) xs)).
  { intros i Hi.
    rewrite (nth_indep _ None (reducir f 1 []))
      by (now rewrite length_map, length_ventanas).
    rewrite map_nth, ventanas_nth by assumption.
    cbn [app]. now rewrite ultimas_filas_ventana. }
  eexists.
  split; [exact (aplicar_funcion_ventana_ok _ _ _ _ _ _ HN (or_introl HM) Hcol Hf) |].
  split; [now rewrite length_map, length_ventanas |].
  split; [| split].
  - intros i Hi. rewrite Hnth by assumption. apply reducir_observaciones.
  - destruct xs as [| x xs']; [exact I |].
    rewrite Hnth by (simpl; lia).
    unfold filas_ventana. simpl Z.of_nat.
    replace (Z.max 0 (0 - N + 1)) with 0 by lia.
    destruct x as [q |]; [| exact I].
    cbn. now apply (reduccion_de_una funcion).
  - intros k Hk HkN. rewrite Hnth by assumption.
    unfold filas_ventana.
    replace (Z.max 0 (Z.of_nat k - N + 1)) with 0 by lia.
    cbn [Z.to_nat skipn].
    replace (Z.to_nat (Z.of_nat k - 0 + 1)) with (S k) by lia.
    apply reducir_observaciones.
Qed.

Lemma aplicar_funcion_ventana_correcta_witness :
  exists serie obs,
    aplicar_funcion_ventana
      [("x", ColNum [Some (5 # 1)%Q; None; Some (7 # 1)%Q; Some 1%Q])]
      "x" 3 "median" = Ok serie
    /\ map Some obs = [Some (7 # 1)%Q; Some 1%Q]
    /\ nth 3 serie None = match obs with [] => None | _ :: _ => Some (mediana obs) end.
Proof.
  destruct (proj1 (proj2 (proj2 (proj2 aplicar_funcion_ventana_correcta)))
              [("x", ColNum [Some (5 # 1)%Q; None; Some (7 # 1)%Q; Some 1%Q])]
              "x" 3 "median" [Some (5 # 1)%Q; None; Some (7 # 1)%Q; Some 1%Q]
              mediana)
    as (serie & Hok & _ & Hnth & _).
  - unfold INT64_MAX. lia.
  - reflexivity.
  - right. left. split; reflexivity.
  - destruct (Hnth 3%nat) as (obs & Hobs & Hval); [simpl; lia |].
    exists serie, obs. split; [exact Hok |]. split; [exact Hobs | exact Hval].
Defined.




(** C10: the window check comes first: a window of size 0 or less raises the
    window error whatever the tag, and the tag error is only ever raised with
    a window of at least 1. *)
Theorem ventana_antes_que_funcion df columna N funcion :
  (N <= 0 ->
   aplicar_funcion_ventana df columna N funcion = Raise InvalidWindowError)
  /\ (aplicar_funcion_ventana df columna N funcion
      = Raise UnsupportedWindowFunctionError -> 1 <= N).
Proof.
  unfold aplicar_funcion_ventana. split.
  - intros HN. destruct (Z.leb_spec N 0); [reflexivity | lia].
  - destruct (Z.leb_spec N 0); [discriminate | lia].
Qed.

Lemma ventana_antes_que_funcion_witness :
  aplicar_funcion_ventana [] "x" (-1) "max" = Raise InvalidWindowError
  /\ 1 <= 4.
Proof.
  split.
  - apply (proj1 (ventana_antes_que_funcion [] "x" (-1) "max")). lia.
  - apply (proj2 (ventana_antes_que_funcion
                    [("x", ColTexto [Some "a"])] "x" 4 "max")).
    reflexivity.
Defined.

(* ================================================================= *)
(** * Properties of sorting and grouping *)


Section Primeras_completa.
Context {A K : Type} (eqb : K -> K -> bool) (key : A -> K).
Hypothesis eqb_eq : forall a b, eqb a b = true <-> a = b.

(** Every key of the table is the key of a kept row, unless seen before. *)
Lemma primeras_completa (a : A) :
  forall l vistas,
    In a l ->
    In (key a) vistas \/ In (key a) (map key (primeras eqb key vistas l)).
Proof.
  induction l as [| b l IH]; intros vistas; simpl; [contradiction |].
  destruct (existsb (eqb (key b)) vistas) eqn:E.
  - intros [-> | Ha]; [| now apply IH].
    left. now apply (existsb_eqb eqb eqb_eq).
  - intros [-> | Ha]; [right; now left |].
    destruct (IH (key b :: vistas) Ha) as [[Eb | Hv] | Hp].
    + right. left. exact Eb.
    + now left.
    + right. right. exact Hp.
Qed.
End Primeras_completa.

Section Groupby.
Context {K : Type} (eqb leb : K -> K -> bool) (key : Fila -> option K).
Hypothesis eqb_eq : forall a b, eqb a b = true <-> a = b.

Lemma groupby_claves (df : DataFrame) :
  map fst (groupby eqb leb key df)
  = ordenar leb (primeras eqb (fun k => k) [] (omap key df)).
Proof. unfold groupby. rewrite map_map. simpl. apply map_id. Qed.

(** One group per key. *)
Lemma groupby_NoDup (df : DataFrame) : NoDup (map fst (groupby eqb leb key df)).
Proof.
  rewrite groupby_claves.
  eapply Permutation_NoDup; [symmetry; apply ordenar_perm |].
  rewrite <- (map_id (primeras _ _ _ _)).
  now apply primeras_NoDup.
Qed.

(** The groups are the keys that some row of the table carries. *)
Lemma groupby_In (df : DataFrame) (k : K) :
  In k (map fst (groupby eqb leb key df)) <-> exists r, In r df /\ key r = Some k.
Proof.
  rewrite groupby_claves, <- in_omap. split.
  - intros H. eapply Permutation_in in H; [| apply ordenar_perm].
    eapply primeras_In, H.
  - intros H. eapply Permutation_in; [symmetry; apply ordenar_perm |].
    destruct (primeras_completa eqb (fun k => k) eqb_eq k _ [] H) as [[] | Hp].
    now rewrite map_id in Hp.
Qed.

Lemma groupby_map (df : DataFrame) {B : Type} (g : K * list Fila -> B) :
  map g (groupby eqb leb key df)
  = map (fun k => g (k, filter (fun r => option_eqb eqb (key r) (Some k)) df))
        (map fst (groupby eqb leb key df)).
Proof. rewrite groupby_claves. unfold groupby. now rewrite map_map. Qed.
End Groupby.

(* ================================================================= *)
(** * Properties of the daily series *)

Lemma serie_diaria_por_fecha (df : DataFrame) :
  serie_diaria df
  = map (fun d => mkDiaria d (mean (map intencion (filas_de_fecha d df)))
                           (mean (map ImagenNormalizada (filas_de_fecha d df))))
        (map fst (groupby Z.eqb Z.leb Fecha df)).
Proof. unfold serie_diaria. now rewrite groupby_map. Qed.

Section Suavizado.
Variable D : Z -> FilaDiaria.
Hypothesis D_fecha : forall k, dFecha (D k) = k.
Variable d : Z.

Lemma asignar_sin_fecha :
  forall fechas suav,
    ~ In d fechas ->
    filter (fun s => tFecha s =? d) (asignar_suavizado (map D fechas) suav) = [].
Proof.
  induction fechas as [| k ks IH]; intros [| v vs] Hd; try reflexivity.
  unfold asignar_suavizado in *. cbn. rewrite D_fecha.
  destruct (Z.eqb_spec k d) as [-> | _]; [exfalso; apply Hd; now left |].
  apply IH. intros Hin. apply Hd. now right.
Qed.

(** A date of a duplicate-free list of dates gets exactly one row. *)
Lemma asignar_una_fila :
  forall fechas suav,
    NoDup fechas -> length suav = length fechas -> In d fechas ->
    exists v,
      filter (fun s => tFecha s =? d) (asignar_suavizado (map D fechas) suav)
      = [mkTracking d (dIntencionVoto (D d)) (dImagenMedia (D d)) v].
Proof.
  induction fechas as [| k ks IH]; intros [| v vs] Hnd Hlen Hd;
    try contradiction; try discriminate.
  apply NoDup_cons_iff in Hnd. destruct Hnd as [Hk Hnd].
  injection Hlen as Hlen.
  pose proof (asignar_sin_fecha ks vs) as Hvacio.
  unfold asignar_suavizado in *. cbn. rewrite D_fecha.
  destruct (Z.eqb_spec k d) as [-> | Hne].
  - exists v. rewrite Hvacio by exact Hk. reflexivity.
  - destruct Hd as [-> | Hd]; [contradiction |].
    apply IH; assumption.
Qed.
End Suavizado.

(** C2: for a valid configuration (a window from 1 to 2^63-1, a supported
    summary, a numeric target column) [tracking_electoral] returns a series
    that has, for every date of the table, exactly one row; its vote intention is
    the mean of [IntencionVoto] over the rows of that date and its image the
    mean of [Imagen Normalizada] over them.  Two cleaned rows of 2024-01-01
    with (1, 0.8) and (0, 0.6) give the daily values 0.5 and 0.7. *)
Theorem tracking_electoral_serie_diaria :
  (forall df config f d,
      0 < ventana config <= INT64_MAX ->
      reduccion (tipo_resumen config) = Some f ->
      columna_objetivo config = "IntencionVoto"
      \/ columna_objetivo config = "ImagenMedia" ->
      In (Some d) (map Fecha df) ->
      exists serie fila,
        tracking_electoral df config = Ok serie
        /\ filter (fun s => tFecha s =? d) serie = [fila]
        /\ tIntencionVoto fila = mean (map intencion (filas_de_fecha d df))
        /\ tImagenMedia fila = mean (map ImagenNormalizada (filas_de_fecha d df)))
  /\ (let df := limpiar_datos filas_dos_votos "Candidate A" in
      map (fun r => (Fecha r, IntencionVoto r, option_map Qred (ImagenNormalizada r))) df
      = [ (Some dia_2024_01_01, Some 1, Some (4 # 5)%Q);
          (Some dia_2024_01_01, Some 0, Some (3 # 5)%Q) ]
      /\ exists serie,
          tracking_electoral df config_por_defecto = Ok serie
          /\ map (fun s => (tFecha s, option_map Qred (tIntencionVoto s),
                            option_map Qred (tImagenMedia s))) serie
             = [ (dia_2024_01_01, Some (1 # 2)%Q, Some (7 # 10)%Q) ]).
Proof.
  split.
  - intros df config f d [HN HM] Hf Hcol Hd.
    unfold tracking_electoral.
    set (serie := serie_diaria df).
    assert (Hw : exists xs,
               getitem (tabla_de_serie serie) (columna_objetivo config)
               = Ok (ColNum xs) /\ length xs = length serie).
    { destruct Hcol as [-> | ->]; eexists; (split; [reflexivity |]);
        apply length_map. }
    destruct Hw as (xs & Hget & Hlen).
    rewrite (aplicar_funcion_ventana_ok _ _ _ _ _ _ HN (or_introl HM) Hget Hf).
    cbn [bind].
    assert (Hin : In d (map fst (groupby Z.eqb Z.leb Fecha df))).
    { apply (groupby_In _ _ _ Z.eqb_eq). apply in_map_iff in Hd.
      destruct Hd as (r & E & Hr). exists r. auto. }
    subst serie. rewrite serie_diaria_por_fecha in *.
    rewrite length_map in Hlen.
    destruct (asignar_una_fila
                (fun k => mkDiaria k (mean (map intencion (filas_de_fecha k df)))
                            (mean (map ImagenNormalizada (filas_de_fecha k df))))
                (fun k => eq_refl) d
                (map fst (groupby Z.eqb Z.leb Fecha df))
                (map (reducir f 1) (ventanas (Z.to_nat (ventana config)) [] xs))
                (groupby_NoDup Z.eqb Z.leb Fecha Z.eqb_eq df)) as (v & Hv).
    + now rewrite length_map, length_ventanas.
    + exact Hin.
    + eexists. eexists. split; [reflexivity |]. split; [exact Hv |].
      split; reflexivity.
  - cbv zeta. split; [vm_compute; reflexivity |].
    eexists. split; vm_compute; reflexivity.
Qed.

Lemma tracking_electoral_serie_diaria_witness :
  exists serie fila,
    tracking_electoral (limpiar_datos filas_dos_votos "Candidate A")
                       config_por_defecto = Ok serie
    /\ filter (fun s => tFecha s =? dia_2024_01_01) serie = [fila]
    /\ tIntencionVoto fila
       = mean (map intencion
                   (filas_de_fecha dia_2024_01_01
                      (limpiar_datos filas_dos_votos "Candidate A"))).
Proof.
  destruct (proj1 tracking_electoral_serie_diaria
              (limpiar_datos filas_dos_votos "Candidate A")
              config_por_defecto media dia_2024_01_01)
    as (serie & fila & H1 & H2 & H3 & _).
  - unfold INT64_MAX. simpl. lia.
  - reflexivity.
  - left. reflexivity.
  - left. reflexivity.
  - exists serie, fila. auto.
Defined.

(* ================================================================= *)
(** * Properties of the demographic summary *)

Lemma grupo_eqb_eq (a b : GrupoDemografico) : grupo_eqb a b = true <-> a = b.
Proof.
  destruct a as [[f1 s1] e1], b as [[f2 s2] e2]. unfold grupo_eqb.
  rewrite !andb_true_iff, Z.eqb_eq, !String.eqb_eq. split.
  - intros [[-> ->] ->]. reflexivity.
  - intros [= -> -> ->]. auto.
Qed.

Lemma indicadores_por_grupo (df : DataFrame) :
  indicadores_sociodemograficos df
  = map (fun g : GrupoDemografico =>
           match g with
           | (f, s, e) =>
               mkIndicador f s e
                 (count (map Encuesta (filas_de_grupo g df)))
                 (mean (map ImagenDelCandidato (filas_de_grupo g df)))
                 (mean (map intencion (filas_de_grupo g df)))
           end)
        (map fst (groupby grupo_eqb grupo_leb clave_demografica df)).
Proof.
  unfold indicadores_sociodemograficos. rewrite groupby_map.
  apply map_ext. intros [[f s] e]. reflexivity.
Qed.

Lemma grupo_de_indicadores (df : DataFrame) :
  map grupo_de (indicadores_sociodemograficos df)
  = map fst (groupby grupo_eqb grupo_leb clave_demografica df).
Proof.
  rewrite indicadores_por_grupo, map_map.
  rewrite <- (map_id (map fst _)) at 2.
  apply map_ext. intros [[f s] e]. reflexivity.
Qed.

Lemma clave_demografica_Some (r : Fila) f s e :
  clave_demografica r = Some (f, s, e)
  <-> Fecha r = Some f /\ Sexo r = Some s /\ EdadRango r = Some e.
Proof.
  unfold clave_demografica.
  destruct (Fecha r), (Sexo r), (EdadRango r); split;
    try discriminate; try (intros (? & ? & ?); discriminate).
  - intros [= -> -> ->]. auto.
  - intros ([= ->] & [= ->] & [= ->]). reflexivity.
Qed.

Lemma count_map_filter {A : Type} (col : Fila -> option A) (l : list Fila) :
  count (map col l) = Z.of_nat (length (filter (fun r => notna (col r)) l)).
Proof.
  unfold count. f_equal.
  induction l as [| r l IH]; simpl; [reflexivity |].
  destruct (notna (col r)); simpl; now rewrite IH.
Qed.

(** C9, as stated, fails: a cleaned row without survey identifier forms its
    group, but the count of the group is 0, not 1. *)
Lemma indicadores_n_no_cuenta_filas :
  let df := limpiar_datos [fila_sin_encuesta] "Candidato A" in
  map n (indicadores_sociodemograficos df) = [0]
  /\ map (fun i => length (filas_de_grupo (grupo_de i) df))
         (indicadores_sociodemograficos df) = [1%nat].
Proof. cbv zeta. split; vm_compute; reflexivity. Qed.

(** C9, amended: the summary has one row per (date, sex, age bracket) carried
    by at least one row of the table with the three keys present, rows with
    a null key (so those without age bracket) belong to no group, and the
    count of a group is the number of its rows whose [Encuesta] is present. *)
Theorem indicadores_sociodemograficos_grupos (df : DataFrame) :
  NoDup (map grupo_de (indicadores_sociodemograficos df))
  /\ (forall f s e,
         In (f, s, e) (map grupo_de (indicadores_sociodemograficos df))
         <-> exists r, In r df /\ Fecha r = Some f /\ Sexo r = Some s
                       /\ EdadRango r = Some e)
  /\ (forall f s e r,
         In r (filas_de_grupo (f, s, e) df)
         <-> In r df /\ Fecha r = Some f /\ Sexo r = Some s /\ EdadRango r = Some e)
  /\ (forall i,
         In i (indicadores_sociodemograficos df) ->
         n i = Z.of_nat (length (filter (fun r => notna (Encuesta r))
                                        (filas_de_grupo (grupo_de i) df)))).
Proof.
  split; [| split; [| split]].
  - rewrite grupo_de_indicadores. apply groupby_NoDup, grupo_eqb_eq.
  - intros f s e. rewrite grupo_de_indicadores, (groupby_In _ _ _ grupo_eqb_eq).
    split; intros (r & Hr & H); exists r; (split; [exact Hr |]);
      now apply clave_demografica_Some.
  - intros f s e r. unfold filas_de_grupo.
    rewrite filter_In, (option_eqb_eq _ grupo_eqb_eq), clave_demografica_Some.
    reflexivity.
  - intros i Hi. rewrite indicadores_por_grupo in Hi.
    apply in_map_iff in Hi. destruct Hi as ([[f s] e] & <- & _).
    cbn [n grupo_de iFecha iSexo iEdadRango]. apply count_map_filter.
Qed.

Lemma indicadores_sociodemograficos_grupos_witness :
  let df := limpiar_datos filas_dos_votos "Candidate A" in
  let i := hd (mkIndicador 0 "x" "x" 0 None None) (indicadores_sociodemograficos df) in
  In i (indicadores_sociodemograficos df)
  /\ n i = Z.of_nat (length (filter (fun r => notna (Encuesta r))
                                    (filas_de_grupo (grupo_de i) df))).
Proof.
  cbv zeta.
  assert (Hin : In (hd (mkIndicador 0 "x" "x" 0 None None)
                       (indicadores_sociodemograficos
                          (limpiar_datos filas_dos_votos "Candidate A")))
                   (indicadores_sociodemograficos
                      (limpiar_datos filas_dos_votos "Candidate A"))).
  { vm_compute. left. reflexivity. }
  split; [exact Hin |].
  exact (proj2 (proj2 (proj2 (indicadores_sociodemograficos_grupos
                                (limpiar_datos filas_dos_votos "Candidate A"))))
               _ Hin).
Defined.

(* ================================================================= *)
(** * Properties of the loader *)


Lemma Sorted_map {A B : Type} (g : A -> B) (R : B -> B -> Prop) :
  forall l, Sorted (fun a b => R (g a) (g b)) l -> Sorted R (map g l).
Proof.
  induction l as [| a l IH]; intros Hs; simpl; [constructor |].
  inversion Hs as [| ? ? Hs' Hhd]; subst. constructor; [now apply IH |].
  destruct l; simpl; constructor. now inversion Hhd.
Qed.

Lemma map_fst_combine {A B : Type} :
  forall (l : list A) (l' : list B),
    length l = length l' -> map fst (combine l l') = l.
Proof.
  induction l as [| a l IH]; intros [| b l'] H; try discriminate; simpl;
    [reflexivity |].
  f_equal. apply IH. now injection H.
Qed.

Lemma map_snd_combine {A B : Type} :
  forall (l : list A) (l' : list B),
    length l = length l' -> map snd (combine l l') = l'.
Proof.
  induction l as [| a l IH]; intros [| b l'] H; try discriminate; simpl;
    [reflexivity |].
  f_equal. apply IH. now injection H.
Qed.

Lemma omap_map {A B C : Type} (f : B -> option C) (g : A -> B) :
  forall l, omap f (map g l) = omap (fun a => f (g a)) l.
Proof.
  induction l as [| a l IH]; simpl; [reflexivity |].
  now rewrite IH.
Qed.

Lemma omap_perm {A B : Type} (f : A -> option B) (l l' : list A) :
  Permutation l l' -> Permutation (omap f l) (omap f l').
Proof.
  induction 1 as [| a l l' _ IH | a b l | l1 l2 l3 _ IH1 _ IH2]; simpl.
  - constructor.
  - destruct (f a); [now constructor | exact IH].
  - destruct (f a), (f b); try reflexivity. apply perm_swap.
  - now transitivity (omap f l2).
Qed.

Lemma take_todo {A : Type} : forall l : list A, take l (seq 0 (length l)) = l.
Proof.
  unfold take. induction l as [| a l IH]; simpl; [reflexivity |].
  rewrite <- seq_shift, omap_map. simpl. f_equal. exact IH.
Qed.

(** Taking the rows at a permutation of the positions permutes the rows. *)
Lemma take_perm {A : Type} (l : list A) (indexer : list nat) :
  Permutation indexer (seq 0 (length l)) -> Permutation (take l indexer) l.
Proof.
  intros H. rewrite <- (take_todo l) at 2. now apply omap_perm.
Qed.

Lemma map_take {A B : Type} (g : A -> B) (d : B) (l : list A) :
  forall indexer,
    (forall i, In i indexer -> (i < length l)%nat) ->
    map g (take l indexer) = map (fun i => nth i (map g l) d) indexer.
Proof.
  unfold take. induction indexer as [| i idx IH]; intros H; simpl; [reflexivity |].
  assert (Hi : (i < length l)%nat) by (apply H; now left).
  destruct (nth_error l i) as [a |] eqn:E.
  - simpl. rewrite IH by (intros j Hj; apply H; now right). f_equal.
    symmetry. apply nth_error_nth. now apply map_nth_error.
  - apply nth_error_None in E. lia.
Qed.

Lemma combine_seq_nth {A : Type} (d : A) :
  forall (l : list A) (s i : nat) (a : A),
    In (i, a) (combine (seq s (length l)) l) -> nth (i - s) l d = a.
Proof.
  induction l as [| x l IH]; intros s i a; simpl; [contradiction |].
  intros [[= <- <-] | H].
  - now rewrite Nat.sub_diag.
  - pose proof (in_combine_l _ _ _ _ H) as Hs. apply in_seq in Hs.
    apply IH in H. replace (i - s)%nat with (S (i - S s)) by lia. exact H.
Qed.

(** An insertion indexer meets the contract of [sort_values] as soon as its
    comparison agrees with the order of the dates. *)
Lemma argsort_por_contrato (cmp : option Z -> option Z -> bool) :
  (forall a b, cmp a b = true -> fecha_le a b) ->
  (forall a b, cmp a b = false -> fecha_le b a) ->
  contrato_argsort (argsort_por cmp).
Proof.
  intros Ht Hf claves. unfold contrato_en, argsort_por.
  set (pares := combine (seq 0 (length claves)) claves).
  set (ord := ordenar (fun a b : nat * option Z => cmp (snd a) (snd b)) pares).
  assert (Hperm : Permutation ord pares) by apply ordenar_perm.
  split.
  - rewrite <- (map_fst_combine (seq 0 (length claves)) claves)
      by apply length_seq.
    now apply Permutation_map.
  - rewrite map_map.
    rewrite (map_ext_in _ snd).
    + apply Sorted_map.
      apply (ordenar_Sorted _ (fun a b => fecha_le (snd a) (snd b))).
      * intros x y. apply Ht.
      * intros x y. apply Hf.
    + intros [i k] Hin. simpl.
      apply (Permutation_in _ Hperm) in Hin.
      apply (combine_seq_nth None) in Hin. now rewrite Nat.sub_0_r in Hin.
Qed.

Lemma contrato_argsort_estable : contrato_argsort argsort_estable.
Proof.
  apply argsort_por_contrato.
  - intros [x |] [y |]; simpl; try easy. apply Z.leb_le.
  - intros [x |] [y |]; simpl; try easy. rewrite Z.leb_gt. lia.
Qed.

(** The decision procedure for the contract is sound. *)
Lemma es_permutacion_de_posiciones_ok (l : list nat) (n : nat) :
  es_permutacion_de_posiciones l n = true -> Permutation l (seq 0 n).
Proof.
  unfold es_permutacion_de_posiciones. rewrite andb_true_iff, forallb_forall.
  intros [Hlen Hall]. apply Nat.eqb_eq in Hlen. symmetry.
  apply NoDup_Permutation_bis.
  - apply seq_NoDup.
  - rewrite length_seq. lia.
  - intros i Hi. specialize (Hall i Hi). apply existsb_exists in Hall.
    destruct Hall as (j & Hj & E). apply Nat.eqb_eq in E. now subst.
Qed.

Lemma esta_ordenada_ok : forall l, esta_ordenada l = true -> Sorted fecha_le l.
Proof.
  induction l as [| a l IH]; intros H; [constructor |].
  destruct l as [| b l]; [repeat constructor |].
  cbn [esta_ordenada] in H. apply andb_true_iff in H. destruct H as [Hab Hl].
  constructor; [now apply IH |]. constructor.
  destruct a as [x |], b as [y |]; simpl in *; try easy. now apply Z.leb_le.
Qed.

Lemma contrato_en_b_ok argsort claves :
  contrato_en_b argsort claves = true -> contrato_en argsort claves.
Proof.
  unfold contrato_en_b, contrato_en. rewrite andb_true_iff. intros [Hp Hs].
  split; [now apply es_permutacion_de_posiciones_ok | now apply esta_ordenada_ok].
Qed.

Lemma map_Fecha_indexado (leido : DataFrame) :
  map (fun r : nat * Fila => Fecha (snd r)) (combine (seq 0 (length leido)) leido)
  = map Fecha leido.
Proof.
  rewrite <- (map_map snd Fecha).
  rewrite map_snd_combine; [reflexivity | apply length_seq].
Qed.

(** With the indexer that keeps ties in input order the two respondents of
    2024-01-01 stay as they were read. *)
Example cargar_datos_con_orden_estable :
  map (fun r => (fst r, Encuesta (snd r)))
      (cargar_datos argsort_estable filas_dos_votos)
  = [(0%nat, Some "E1"); (1%nat, Some "E2")].
Proof. vm_compute. reflexivity. Qed.




(* ================================================================= *)
(** * Further properties of the cleaner *)

Lemma map_omap_filter {A B C : Type} (f : A -> option B) (p : A -> bool)
      (g : B -> C) (h : A -> C) :
  (forall a b, f a = Some b -> p a = true /\ g b = h a) ->
  (forall a, f a = None -> p a = false) ->
  forall l, map g (omap f l) = map h (filter p l).
Proof.
  intros HS HN. induction l as [| a l IH]; simpl; [reflexivity |].
  destruct (f a) as [b |] eqn:E.
  - destruct (HS a b E) as [Hp Hg]. rewrite Hp. simpl. now rewrite Hg, IH.
  - now rewrite (HN a E).
Qed.

Lemma length_primeras {A K : Type} (eqb : K -> K -> bool) (key : A -> K) :
  forall l vistas, (length (primeras eqb key vistas l) <= length l)%nat.
Proof.
  induction l as [| a l IH]; intros vistas; simpl; [lia |].
  destruct (existsb (eqb (key a)) vistas); simpl.
  - specialize (IH vistas). lia.
  - specialize (IH (key a :: vistas)). lia.
Qed.

Lemma dict_get_estratos_iff (k : string) :
  (dict_get estratos_validos k = Some "Bajo" <-> k = "bajo")
  /\ (dict_get estratos_validos k = Some "Medio" <-> k = "medio")
  /\ (dict_get estratos_validos k = Some "Alto" <-> k = "alto")
  /\ (dict_get estratos_validos k = None
      <-> k <> "bajo" /\ k <> "medio" /\ k <> "alto").
Proof.
  unfold estratos_validos. simpl.
  destruct (String.eqb_spec k "bajo") as [-> | H1];
    [| destruct (String.eqb_spec k "medio") as [-> | H2];
       [| destruct (String.eqb_spec k "alto") as [-> | H3]]];
    repeat split; intros; try discriminate; try reflexivity;
    try assumption; try contradiction; try (intuition congruence).
Qed.

Lemma limpiar_fila_completa candidato r0 :
  (forall r, limpiar_fila candidato r0 = Some r ->
             fila_completa r0 = true /\ datos_intactos r = datos_intactos r0)
  /\ (limpiar_fila candidato r0 = None -> fila_completa r0 = false).
Proof.
  unfold limpiar_fila, fila_completa, datos_intactos, normalizar_estrato,
    estrato_valido.
  destruct (dict_get_estratos_iff (lower (strip (astype_str "<NA>" (Estrato r0)))))
    as (HB & HM & HA & HN).
  destruct (Fecha r0), (ImagenDelCandidato r0), (Voto r0), (VotoAnterior r0);
    cbn [notna andb]; try (split; [discriminate | reflexivity]).
  destruct (Estrato r0) as [e |]; cbn [astype_str] in *.
  - destruct (dict_get estratos_validos (lower (strip e))) as [v |] eqn:Ed.
    + split; [| discriminate]. intros r [= <-]. split; [| reflexivity].
      destruct (dict_get_estratos _ _ Ed) as [-> | [-> | ->]].
      * rewrite (proj1 HB eq_refl). reflexivity.
      * rewrite (proj1 HM eq_refl). reflexivity.
      * rewrite (proj1 HA eq_refl). reflexivity.
    + split; [discriminate |]. intros _.
      destruct (proj1 HN eq_refl) as (H1 & H2 & H3).
      apply String.eqb_neq in H1, H2, H3. now rewrite H1, H2, H3.
  - split; [| reflexivity]. vm_compute. discriminate.
Qed.

(** X1: the cleaned table is made of exactly the first occurrences (by
    Encuesta, Estrato as written, Sexo, Edad) that have the four required
    cells and a recognised stratum, in input order; the columns the cleaner
    does not write are carried over unchanged, so no row is invented. *)
Theorem limpiar_datos_filas_que_quedan df candidato :
  map datos_intactos (limpiar_datos df candidato)
  = map datos_intactos (filter fila_completa (drop_duplicates df))
  /\ (length (limpiar_datos df candidato) <= length df)%nat.
Proof.
  rewrite limpiar_datos_por_filas.
  assert (E : map datos_intactos (omap (limpiar_fila candidato) (drop_duplicates df))
              = map datos_intactos (filter fila_completa (drop_duplicates df))).
  { apply map_omap_filter.
    - intros a b. apply (limpiar_fila_completa candidato a).
    - apply (limpiar_fila_completa candidato). }
  split; [exact E |].
  apply (f_equal (@length _)) in E. rewrite !length_map in E. rewrite E.
  etransitivity; [apply filter_length_le | apply length_primeras].
Qed.

(** X2: every cleaned row comes from an input row with the same untouched
    columns whose stratum, stripped and lowered, is "bajo", "medio" or "alto",
    and carries the capitalised name of that very stratum. *)
Theorem limpiar_datos_estrato df candidato r :
  In r (limpiar_datos df candidato) ->
  exists r0 e0,
    In r0 df /\ datos_intactos r0 = datos_intactos r /\ Estrato r0 = Some e0
    /\ ((lower (strip e0) = "bajo" /\ Estrato r = Some "Bajo")
        \/ (lower (strip e0) = "medio" /\ Estrato r = Some "Medio")
        \/ (lower (strip e0) = "alto" /\ Estrato r = Some "Alto")).
Proof.
  intros Hr. apply limpiar_datos_In in Hr. destruct Hr as (r0 & Hr0 & E).
  destruct (proj1 (limpiar_fila_completa candidato r0) r E) as [Hc Hd].
  unfold limpiar_fila, normalizar_estrato in E.
  destruct (Fecha r0), (ImagenDelCandidato r0), (Voto r0), (VotoAnterior r0);
    try discriminate.
  destruct (Estrato r0) as [e0 |] eqn:Ee; [| vm_compute in E; discriminate].
  cbn [astype_str] in E.
  destruct (dict_get_estratos_iff (lower (strip e0))) as (HB & HM & HA & _).
  destruct (dict_get estratos_validos (lower (strip e0))) as [e |] eqn:Ed;
    [| discriminate].
  injection E as <-. cbn [Estrato].
  exists r0, e0. split; [exact Hr0 |]. split; [now symmetry |].
  split; [exact Ee |].
  destruct (dict_get_estratos _ _ Ed) as [-> | [-> | ->]].
  - left. split; [now apply HB | reflexivity].
  - right. left. split; [now apply HM | reflexivity].
  - right. right. split; [now apply HA | reflexivity].
Qed.

Lemma limpiar_datos_estrato_witness :
  exists r r0 e0,
    In r (limpiar_datos filas_dos_votos "Candidate A")
    /\ In r0 filas_dos_votos /\ Estrato r0 = Some e0
    /\ datos_intactos r0 = datos_intactos r.
Proof.
  assert (Hin : In (hd fila_sin_encuesta (limpiar_datos filas_dos_votos "Candidate A"))
                   (limpiar_datos filas_dos_votos "Candidate A")).
  { vm_compute. left. reflexivity. }
  destruct (limpiar_datos_estrato _ _ _ Hin) as (r0 & e0 & H0 & Hd & He & _).
  eexists. exists r0, e0. split; [exact Hin |]. auto.
Defined.

Lemma strip_title_strip (v : string) : strip (title (strip v)) = title (strip v).
Proof.
  unfold strip at 1, title.
  rewrite lstrip_fijo, rstrip_title_aux.
  - unfold strip. now rewrite rstrip_idem.
  - apply title_aux_sin_espacio, rstrip_sin_espacio, lstrip_sin_espacio.
Qed.

(** X3: in every cleaned row the vote and the previous vote are present and
    already harmonised: stripping them or title-casing them changes nothing. *)
Theorem limpiar_datos_votos_armonizados df candidato r :
  In r (limpiar_datos df candidato) ->
  exists v va,
    Voto r = Some v /\ strip v = v /\ title v = v
    /\ VotoAnterior r = Some va /\ strip va = va /\ title va = va.
Proof.
  intros Hr. apply limpiar_datos_In in Hr. destruct Hr as (r0 & _ & E).
  unfold limpiar_fila in E.
  destruct (Fecha r0), (ImagenDelCandidato r0), (Voto r0) as [v |],
    (VotoAnterior r0) as [va |], (normalizar_estrato (Estrato r0));
    try discriminate.
  injection E as <-. cbn [Voto VotoAnterior].
  exists (title (strip v)), (title (strip va)).
  repeat split; try apply strip_title_strip; apply title_aux_idem.
Qed.

Lemma limpiar_datos_votos_armonizados_witness :
  exists r v,
    In r (limpiar_datos filas_mismo_estrato "Candidato A")
    /\ Voto r = Some v /\ strip v = v /\ title v = v.
Proof.
  assert (Hin : In (hd fila_sin_encuesta
                       (limpiar_datos filas_mismo_estrato "Candidato A"))
                   (limpiar_datos filas_mismo_estrato "Candidato A")).
  { vm_compute. left. reflexivity. }
  destruct (limpiar_datos_votos_armonizados _ _ _ Hin)
    as (v & va & Hv & Hs & Ht & _).
  eexists. exists v. split; [exact Hin |]. auto.
Defined.

(** X4: the age bracket of a cleaned row follows the bins (17, 29], (29, 44],
    (44, 59], (59, 120]: ages 18 to 29 get "18-29", 30 to 44 "30-44", 45 to
    59 "45-59", 60 to 120 "60+", and a missing age or one outside 18..120
    leaves the bracket null while the row is kept. *)
Theorem limpiar_datos_edad_rango df candidato r :
  In r (limpiar_datos df candidato) ->
  match Edad r with
  | None => EdadRango r = None
  | Some e =>
      (e <= 17 \/ 120 < e -> EdadRango r = None)
      /\ (18 <= e <= 29 -> EdadRango r = Some "18-29")
      /\ (30 <= e <= 44 -> EdadRango r = Some "30-44")
      /\ (45 <= e <= 59 -> EdadRango r = Some "45-59")
      /\ (60 <= e <= 120 -> EdadRango r = Some "60+")
  end.
Proof.
  intros Hr. apply limpiar_datos_In in Hr. destruct Hr as (r0 & _ & E).
  unfold limpiar_fila in E.
  destruct (Fecha r0), (ImagenDelCandidato r0), (Voto r0), (VotoAnterior r0),
    (normalizar_estrato (Estrato r0)); try discriminate.
  injection E as <-. cbn [Edad EdadRango].
  destruct (Edad r0) as [e |]; [| reflexivity].
  unfold bins_edad, labels_edad. cbn [cut].
  destruct (Z.ltb_spec 17 e), (Z.leb_spec e 29), (Z.ltb_spec 29 e),
    (Z.leb_spec e 44), (Z.ltb_spec 44 e), (Z.leb_spec e 59),
    (Z.ltb_spec 59 e), (Z.leb_spec e 120);
    cbn [andb]; repeat split; intros; try reflexivity; lia.
Qed.

Lemma limpiar_datos_edad_rango_witness :
  exists r,
    In r (limpiar_datos filas_dos_votos "Candidate A")
    /\ Edad r = Some 30 /\ EdadRango r = Some "30-44".
Proof.
  assert (Hin : In (hd fila_sin_encuesta (limpiar_datos filas_dos_votos "Candidate A"))
                   (limpiar_datos filas_dos_votos "Candidate A")).
  { vm_compute. left. reflexivity. }
  pose proof (limpiar_datos_edad_rango _ _ _ Hin) as H.
  assert (He : Edad (hd fila_sin_encuesta
                        (limpiar_datos filas_dos_votos "Candidate A")) = Some 30).
  { vm_compute. reflexivity. }
  rewrite He in H. destruct H as (_ & _ & H & _).
  eexists. split; [exact Hin |]. split; [exact He | apply H; lia].
Defined.

(** X5: a second cleaning only removes the rows whose (Encuesta, Estrato,
    Sexo, Edad) repeats an earlier cleaned row, and from then on cleaning
    changes nothing: the third cleaning returns the table of the second. *)
Theorem limpiar_datos_estable_desde_la_segunda df candidato :
  limpiar_datos (limpiar_datos df candidato) candidato
  = drop_duplicates (limpiar_datos df candidato)
  /\ limpiar_datos (limpiar_datos (limpiar_datos df candidato) candidato) candidato
     = limpiar_datos (limpiar_datos df candidato) candidato.
Proof.
  split; [apply limpiar_datos_dos_veces |].
  rewrite (limpiar_datos_dos_veces (limpiar_datos df candidato)).
  rewrite !(limpiar_datos_dos_veces df).
  unfold drop_duplicates at 1.
  apply (primeras_sin_repetidos clave_eqb clave clave_eqb_eq).
  - apply primeras_NoDup, clave_eqb_eq.
  - intros a _ [].
Qed.

(* ================================================================= *)
(** * Further properties of the windower *)

Lemma getitem_Ok (df : Tabla) (columna : string) (col : Columna) :
  getitem df columna = Ok col -> In (columna, col) df.
Proof.
  induction df as [| [nombre c] df IH]; simpl; [discriminate |].
  destruct (String.eqb_spec columna nombre) as [-> | _].
  - intros [= ->]. now left.
  - intros H. right. now apply IH.
Qed.

Lemma getitem_Raise (df : Tabla) (columna : string) (e : Error) :
  getitem df columna = Raise e ->
  e = KeyError columna /\ forall col, ~ In (columna, col) df.
Proof.
  induction df as [| [nombre c] df IH]; simpl.
  - intros [= <-]. split; [reflexivity | intros col []].
  - destruct (String.eqb_spec columna nombre) as [-> | Hne]; [discriminate |].
    intros H. destruct (IH H) as [-> Hno]. split; [reflexivity |].
    intros col [[= <- _] | Hin]; [now apply Hne | now apply (Hno col)].
Qed.

Lemma rolling_apply_no_KeyError f r c : rolling_apply f r <> Raise (KeyError c).
Proof.
  unfold rolling_apply. destruct (obj r) as [[| x xs] | |]; try discriminate.
  destruct (INT64_MAX <? window r); discriminate.
Qed.

Lemma rolling_apply_Ok_inv f xs N minp serie :
  rolling_apply f (mkRolling (ColNum xs) N minp) = Ok serie ->
  serie = map (reducir f minp) (ventanas (Z.to_nat N) [] xs)
  /\ (N <= INT64_MAX \/ xs = []).
Proof.
  unfold rolling_apply. cbn [obj window min_periods].
  destruct xs as [| x xs]; [intros [= <-]; split; [reflexivity | now right] |].
  destruct (Z.ltb_spec INT64_MAX N); [discriminate |].
  intros [= <-]. split; [reflexivity | left; lia].
Qed.

(** What a successful call of the windower has computed. *)
Lemma aplicar_funcion_ventana_Ok_inv df columna N funcion serie :
  aplicar_funcion_ventana df columna N funcion = Ok serie ->
  0 < N /\ exists xs f,
      getitem df columna = Ok (ColNum xs)
      /\ reduccion funcion = Some f
      /\ serie = map (reducir f 1) (ventanas (Z.to_nat N) [] xs)
      /\ (N <= INT64_MAX \/ xs = []).
Proof.
  unfold aplicar_funcion_ventana, reduccion.
  destruct (Z.leb_spec N 0) as [| HN]; [discriminate |].
  destruct (getitem df columna) as [col | e]; [| discriminate]. cbn [bind].
  unfold rolling_mean, rolling_median, rolling_sum.
  intros H. split; [exact HN |].
  destruct (String.eqb funcion "mean");
    [| destruct (String.eqb funcion "median");
       [| destruct (String.eqb funcion "sum"); [| discriminate]]];
    (destruct col as [xs | |]; [| discriminate | discriminate]);
    apply rolling_apply_Ok_inv in H; destruct H as [-> Hb];
    eexists; eexists; repeat split; exact Hb.
Qed.

(** X6: with a positive window, the windower raises [KeyError] exactly when
    the table has no column of the requested name, whatever the function tag
    is: the column is looked up before the tag is examined. *)
Theorem aplicar_funcion_ventana_columna_ausente df columna N funcion :
  0 < N ->
  (aplicar_funcion_ventana df columna N funcion = Raise (KeyError columna)
   <-> forall col, ~ In (columna, col) df).
Proof.
  intros HN. unfold aplicar_funcion_ventana.
  destruct (Z.leb_spec N 0) as [| _]; [lia |].
  destruct (getitem df columna) as [col | e] eqn:E; cbn [bind].
  - split.
    + intros H. exfalso.
      destruct (String.eqb funcion "mean");
        [now apply rolling_apply_no_KeyError in H |].
      destruct (String.eqb funcion "median");
        [now apply rolling_apply_no_KeyError in H |].
      destruct (String.eqb funcion "sum");
        [now apply rolling_apply_no_KeyError in H | discriminate].
    + intros Hno. exfalso. apply (Hno col). now apply getitem_Ok.
  - destruct (getitem_Raise _ _ _ E) as [-> Hno]. split; [intros _ | reflexivity].
    exact Hno.
Qed.

Lemma aplicar_funcion_ventana_columna_ausente_witness :
  aplicar_funcion_ventana [("x", ColNum [Some 1%Q])] "y" 3 "max"
  = Raise (KeyError "y").
Proof.
  apply (aplicar_funcion_ventana_columna_ausente
           [("x", ColNum [Some 1%Q])] "y" 3 "max").
  - lia.
  - intros col [H | []]. discriminate H.
Defined.

Lemma ventanas_firstn {A : Type} (k : nat) :
  forall (xs buf : list A) (m : nat),
    ventanas k buf (firstn m xs) = firstn m (ventanas k buf xs).
Proof.
  induction xs as [| x xs IH]; intros buf [| m]; simpl; try reflexivity.
  now rewrite IH.
Qed.

(** X7: the windower never looks ahead: run on the first [m] rows of a
    column it returns the first [m] cells of what it returns on the whole
    column. *)
Theorem aplicar_funcion_ventana_prefijo df df' columna N funcion xs serie m :
  getitem df columna = Ok (ColNum xs) ->
  getitem df' columna = Ok (ColNum (firstn m xs)) ->
  aplicar_funcion_ventana df columna N funcion = Ok serie ->
  aplicar_funcion_ventana df' columna N funcion = Ok (firstn m serie).
Proof.
  intros Hcol Hcol' H.
  apply aplicar_funcion_ventana_Ok_inv in H.
  destruct H as (HN & xs0 & f & Hcol0 & Hf & -> & Hb).
  rewrite Hcol in Hcol0. injection Hcol0 as <-.
  assert (Hb' : N <= INT64_MAX \/ firstn m xs = []).
  { destruct Hb as [Hb | ->]; [now left | right; apply firstn_nil]. }
  rewrite (aplicar_funcion_ventana_ok _ _ _ _ _ _ HN Hb' Hcol' Hf).
  now rewrite ventanas_firstn, firstn_map.
Qed.

Lemma aplicar_funcion_ventana_prefijo_witness :
  exists serie,
    aplicar_funcion_ventana
      [("x", ColNum [Some 1%Q; Some (2 # 1)%Q; Some (3 # 1)%Q])] "x" 2 "sum"
    = Ok serie
    /\ aplicar_funcion_ventana
         [("x", ColNum [Some 1%Q; Some (2 # 1)%Q])] "x" 2 "sum"
       = Ok (firstn 2 serie).
Proof.
  eexists. split; [reflexivity |].
  apply (aplicar_funcion_ventana_prefijo
           [("x", ColNum [Some 1%Q; Some (2 # 1)%Q; Some (3 # 1)%Q])]
           [("x", ColNum [Some 1%Q; Some (2 # 1)%Q])]
           "x" 2 "sum" [Some 1%Q; Some (2 # 1)%Q; Some (3 # 1)%Q]);
    reflexivity.
Defined.

Lemma ventanas_de_una {A : Type} :
  forall (xs buf : list A), ventanas 1 buf xs = map (fun x => [x]) xs.
Proof.
  induction xs as [| x xs IH]; intros buf; simpl; [reflexivity |].
  rewrite IH. f_equal. unfold ultimas.
  rewrite length_app, skipn_app. simpl.
  replace (length buf + 1 - 1)%nat with (length buf) by lia.
  rewrite skipn_all, Nat.sub_diag. reflexivity.
Qed.

(** X8: with a window of one row the three reductions return the column
    itself, row by row (nulls stay null). *)
Theorem aplicar_funcion_ventana_de_una_fila df columna funcion xs serie :
  getitem df columna = Ok (ColNum xs) ->
  aplicar_funcion_ventana df columna 1 funcion = Ok serie ->
  Forall2 celda_eq serie xs.
Proof.
  intros Hcol H.
  apply aplicar_funcion_ventana_Ok_inv in H.
  destruct H as (_ & xs0 & f & Hcol0 & Hf & -> & _).
  rewrite Hcol in Hcol0. injection Hcol0 as <-.
  change (Z.to_nat 1) with 1%nat. rewrite ventanas_de_una, map_map.
  clear Hcol.
  induction xs as [| x xs IH]; simpl; [constructor |].
  constructor; [| exact IH].
  destruct x as [q |]; cbn; [| exact I].
  now apply (reduccion_de_una funcion).
Qed.

Lemma aplicar_funcion_ventana_de_una_fila_witness :
  exists serie,
    aplicar_funcion_ventana [("x", ColNum [Some (5 # 1)%Q; None])] "x" 1 "mean"
    = Ok serie
    /\ Forall2 celda_eq serie [Some (5 # 1)%Q; None].
Proof.
  eexists. split; [reflexivity |].
  apply (aplicar_funcion_ventana_de_una_fila
           [("x", ColNum [Some (5 # 1)%Q; None])] "x" "mean"); reflexivity.
Defined.

Lemma observaciones_nil (w : list (option Q)) :
  observaciones w = [] <-> forall c, In c w -> c = None.
Proof.
  unfold observaciones. induction w as [| [q |] w IH]; simpl.
  - split; [intros _ c [] | reflexivity].
  - split; [discriminate |]. intros H. discriminate (H (Some q)). now left.
  - rewrite IH. split.
    + intros H c [<- | Hc]; [reflexivity | now apply H].
    + intros H c Hc. apply H. now right.
Qed.

Lemma reducir_None (f : list Q -> Q) (w : list (option Q)) :
  reducir f 1 w = None <-> forall c, In c w -> c = None.
Proof.
  rewrite <- observaciones_nil. unfold reducir.
  destruct (observaciones w) as [| q obs]; simpl; split;
    (discriminate || reflexivity).
Qed.

Lemma In_firstn {A : Type} (x : A) (n : nat) (l : list A) :
  In x (firstn n l) -> In x l.
Proof.
  intros H. rewrite <- (firstn_skipn n l). apply in_or_app. now left.
Qed.

Lemma In_skipn {A : Type} (x : A) (n : nat) (l : list A) :
  In x (skipn n l) -> In x l.
Proof.
  intros H. rewrite <- (firstn_skipn n l). apply in_or_app. now right.
Qed.

(** The row itself belongs to its window. *)
Lemma fila_en_su_ventana {A : Type} (d : A) (N : Z) (xs : list A) (i : nat) :
  0 < N -> (i < length xs)%nat ->
  In (nth i xs d) (filas_ventana N (Z.of_nat i) xs).
Proof.
  intros HN Hi. rewrite <- ultimas_filas_ventana by assumption.
  unfold ultimas. rewrite length_firstn.
  replace (Nat.min (S i) (length xs)) with (S i) by lia.
  replace (nth i xs d)
    with (nth (i - (S i - Z.to_nat N)) (skipn (S i - Z.to_nat N) (firstn (S i) xs)) d).
  - apply nth_In. rewrite length_skipn, length_firstn. lia.
  - rewrite nth_skipn, nth_firstn.
    replace (S i - Z.to_nat N + (i - (S i - Z.to_nat N)))%nat with i by lia.
    destruct (Nat.ltb_spec i (S i)); [reflexivity | lia].
Qed.

(** X9: a cell of the result is null exactly when every row of its window is
    null; in particular a row that has a value always gets a smoothed value. *)
Theorem aplicar_funcion_ventana_nulos df columna N funcion xs serie i :
  getitem df columna = Ok (ColNum xs) ->
  aplicar_funcion_ventana df columna N funcion = Ok serie ->
  (i < length xs)%nat ->
  (nth i serie None = None
   <-> forall c, In c (filas_ventana N (Z.of_nat i) xs) -> c = None)
  /\ (nth i xs None <> None -> nth i serie None <> None).
Proof.
  intros Hcol H Hi.
  apply aplicar_funcion_ventana_Ok_inv in H.
  destruct H as (HN & xs0 & f & Hcol0 & Hf & -> & Hb).
  rewrite Hcol in Hcol0. injection Hcol0 as <-.
  assert (E : nth i (map (reducir f 1) (ventanas (Z.to_nat N) [] xs)) None
              = reducir f 1 (filas_ventana N (Z.of_nat i) xs)).
  { rewrite (nth_indep _ None (reducir f 1 []))
      by (now rewrite length_map, length_ventanas).
    rewrite map_nth, ventanas_nth by assumption.
    cbn [app]. now rewrite ultimas_filas_ventana. }
  rewrite E, reducir_None. split; [reflexivity |].
  intros Hx Hnull. apply Hx, Hnull. now apply fila_en_su_ventana.
Qed.

Lemma aplicar_funcion_ventana_nulos_witness :
  exists serie,
    aplicar_funcion_ventana [("x", ColNum [None; Some 1%Q; None])] "x" 2 "mean"
    = Ok serie
    /\ nth 0 serie None = None /\ nth 2 serie None <> None.
Proof.
  eexists. split; [reflexivity |].
  destruct (aplicar_funcion_ventana_nulos
              [("x", ColNum [None; Some 1%Q; None])] "x" 2 "mean"
              [None; Some 1%Q; None] _ 0 eq_refl eq_refl) as [H0 _];
    [simpl; lia |].
  split; [apply H0; intros c [<- | []]; reflexivity |].
  vm_compute. discriminate.
Defined.

(* ================================================================= *)
(** * Bounds of the reductions *)

Lemma suma_entre (a b : Q) (xs : list Q) :
  Forall (entre a b) xs ->
  (inject_Z (Z.of_nat (length xs)) * a <= suma xs
   /\ suma xs <= inject_Z (Z.of_nat (length xs)) * b)%Q.
Proof.
  induction 1 as [| q xs [Hq1 Hq2] _ [IH1 IH2]].
  - simpl. split; rewrite Qmult_0_l; apply Qle_refl.
  - cbn [length suma fold_right]. fold (suma xs).
    rewrite Nat2Z.inj_succ, <- Z.add_1_r, inject_Z_plus.
    change (inject_Z 1) with 1%Q.
    set (n := inject_Z (Z.of_nat (length xs))) in *.
    split; lra.
Qed.

Lemma media_entre (a b : Q) (xs : list Q) :
  xs <> [] -> Forall (entre a b) xs -> entre a b (media xs).
Proof.
  intros Hne HF. destruct (suma_entre a b xs HF) as [H1 H2].
  assert (Hn : (0 < inject_Z (Z.of_nat (length xs)))%Q).
  { destruct xs; [contradiction |]. unfold Qlt. simpl. lia. }
  unfold media, entre. split.
  - apply Qle_shift_div_l; [exact Hn |]. now rewrite Qmult_comm.
  - apply Qle_shift_div_r; [exact Hn |]. now rewrite Qmult_comm.
Qed.

Lemma promedio_entre (a b x y : Q) :
  entre a b x -> entre a b y -> entre a b ((x + y) / (2 # 1)).
Proof.
  unfold entre. intros [Hx1 Hx2] [Hy1 Hy2]. split.
  - apply Qle_shift_div_l; [reflexivity | lra].
  - apply Qle_shift_div_r; [reflexivity | lra].
Qed.

Lemma mediana_entre (a b : Q) (xs : list Q) :
  xs <> [] -> Forall (entre a b) xs -> entre a b (mediana xs).
Proof.
  intros Hne HF. unfold mediana.
  pose proof (ordenar_perm Qle_bool xs) as Hp.
  set (s := ordenar Qle_bool xs) in *.
  assert (Hs : forall i, (i < length s)%nat -> entre a b (nth i s 0%Q)).
  { intros i Hi. rewrite Forall_forall in HF. apply HF.
    apply (Permutation_in _ Hp). now apply nth_In. }
  assert (Hlen : (0 < length s)%nat).
  { rewrite (Permutation_length Hp). destruct xs; [contradiction | simpl; lia]. }
  assert (Hmid : (length s / 2 < length s)%nat) by (apply Nat.div_lt; lia).
  destruct (Nat.even (length s)).
  - apply promedio_entre; apply Hs; lia.
  - now apply Hs.
Qed.

Lemma ventanas_In {A : Type} (k : nat) :
  forall (xs buf w : list A) (c : A),
    In w (ventanas k buf xs) -> In c w -> In c buf \/ In c xs.
Proof.
  induction xs as [| x xs IH]; intros buf w c; simpl; [contradiction |].
  intros [<- | Hw] Hc.
  - unfold ultimas in Hc. apply In_skipn, in_app_or in Hc.
    destruct Hc as [Hc | [<- | []]]; auto.
  - destruct (IH _ _ _ Hw Hc) as [Hb | Hx]; [| auto].
    unfold ultimas in Hb. apply In_skipn, in_app_or in Hb.
    destruct Hb as [Hb | [<- | []]]; auto.
Qed.

Lemma observaciones_In (w : list (option Q)) (q : Q) :
  In q (observaciones w) <-> In (Some q) w.
Proof.
  unfold observaciones. rewrite in_omap. split.
  - intros (c & Hc & ->). exact Hc.
  - intros H. exists (Some q). auto.
Qed.

(** A mean or a median of cells between two bounds lies between them. *)
Lemma reducir_entre (f : list Q -> Q) (a b : Q) (w : list (option Q)) (q : Q) :
  f = media \/ f = mediana ->
  celdas_entre a b w -> reducir f 1 w = Some q -> entre a b q.
Proof.
  intros Hf Hw. unfold reducir.
  destruct (observaciones w) as [| o obs] eqn:E; [discriminate |].
  cbn. intros [= <-].
  assert (HF : Forall (entre a b) (o :: obs)).
  { apply Forall_forall. intros x Hx. apply Hw, observaciones_In.
    now rewrite E. }
  destruct Hf as [-> | ->];
    [apply media_entre | apply mediana_entre]; (discriminate || exact HF).
Qed.

(** X10: smoothing by mean or median stays within the range of the data: when
    every value of the column lies between [a] and [b], so does every value
    of the result. *)
Theorem aplicar_funcion_ventana_acotada df columna N funcion xs serie a b :
  funcion = "mean" \/ funcion = "median" ->
  getitem df columna = Ok (ColNum xs) ->
  aplicar_funcion_ventana df columna N funcion = Ok serie ->
  celdas_entre a b xs -> celdas_entre a b serie.
Proof.
  intros Hfun Hcol H Hxs q Hq.
  apply aplicar_funcion_ventana_Ok_inv in H.
  destruct H as (_ & xs0 & f & Hcol0 & Hf & -> & _).
  rewrite Hcol in Hcol0. injection Hcol0 as <-.
  apply in_map_iff in Hq. destruct Hq as (w & Hw & Hin).
  apply (reducir_entre f a b w); [| | exact Hw].
  - destruct Hfun as [-> | ->]; vm_compute in Hf; injection Hf as <-; auto.
  - intros c Hc. apply Hxs.
    destruct (ventanas_In _ _ _ _ _ Hin Hc) as [[] | Hx]. exact Hx.
Qed.

Lemma aplicar_funcion_ventana_acotada_witness :
  exists serie,
    aplicar_funcion_ventana [("x", ColNum [Some 0%Q; Some 1%Q; None])] "x" 2 "median"
    = Ok serie
    /\ celdas_entre 0 1 serie.
Proof.
  eexists. split; [reflexivity |].
  apply (aplicar_funcion_ventana_acotada
           [("x", ColNum [Some 0%Q; Some 1%Q; None])] "x" 2 "median"
           [Some 0%Q; Some 1%Q; None]).
  - right. reflexivity.
  - reflexivity.
  - reflexivity.
  - intros q [[= <-] | [[= <-] | [H | []]]]; [| | discriminate H];
      split; discriminate.
Defined.

(* ================================================================= *)
(** * Further properties of the daily tracking series *)

Lemma getitem_tabla_de_serie (s : list FilaDiaria) (columna : string)
      (xs : list (option Q)) :
  getitem (tabla_de_serie s) columna = Ok (ColNum xs) ->
  (columna = "IntencionVoto" /\ xs = map dIntencionVoto s)
  \/ (columna = "ImagenMedia" /\ xs = map dImagenMedia s).
Proof.
  unfold tabla_de_serie. cbn [getitem].
  destruct (String.eqb_spec columna "Fecha"); [discriminate |].
  destruct (String.eqb_spec columna "IntencionVoto") as [-> | _];
    [intros [= <-]; auto |].
  destruct (String.eqb_spec columna "ImagenMedia") as [-> | _];
    [intros [= <-]; auto | discriminate].
Qed.

(** What a successful run of [tracking_electoral] has computed. *)
Lemma tracking_electoral_Ok_inv df config serie :
  tracking_electoral df config = Ok serie ->
  0 < ventana config /\ exists xs f,
      getitem (tabla_de_serie (serie_diaria df)) (columna_objetivo config)
      = Ok (ColNum xs)
      /\ length xs = length (serie_diaria df)
      /\ reduccion (tipo_resumen config) = Some f
      /\ serie = asignar_suavizado (serie_diaria df)
                   (map (reducir f 1) (ventanas (Z.to_nat (ventana config)) [] xs)).
Proof.
  unfold tracking_electoral.
  destruct (aplicar_funcion_ventana _ _ _ _) as [suav | e] eqn:E; [| discriminate].
  cbn [bind]. intros [= <-].
  apply aplicar_funcion_ventana_Ok_inv in E.
  destruct E as (HN & xs & f & Hcol & Hf & -> & _).
  split; [exact HN |]. exists xs, f. repeat split; try assumption.
  destruct (getitem_tabla_de_serie _ _ _ Hcol) as [[_ ->] | [_ ->]];
    apply length_map.
Qed.

Section Asignar.
Variables (s : list FilaDiaria) (v : list (option Q)).
Hypothesis Hlen : length v = length s.

Lemma asignar_tFecha : map tFecha (asignar_suavizado s v) = map dFecha s.
Proof.
  unfold asignar_suavizado. rewrite map_map. cbn [tFecha].
  rewrite <- (map_map fst dFecha). now rewrite map_fst_combine.
Qed.

Lemma asignar_tIntencionVoto :
  map tIntencionVoto (asignar_suavizado s v) = map dIntencionVoto s.
Proof.
  unfold asignar_suavizado. rewrite map_map. cbn [tIntencionVoto].
  rewrite <- (map_map fst dIntencionVoto). now rewrite map_fst_combine.
Qed.

Lemma asignar_tImagenMedia :
  map tImagenMedia (asignar_suavizado s v) = map dImagenMedia s.
Proof.
  unfold asignar_suavizado. rewrite map_map. cbn [tImagenMedia].
  rewrite <- (map_map fst dImagenMedia). now rewrite map_fst_combine.
Qed.

Lemma asignar_TrackingSuavizado :
  map TrackingSuavizado (asignar_suavizado s v) = v.
Proof.
  unfold asignar_suavizado. rewrite map_map. cbn [TrackingSuavizado].
  now rewrite map_snd_combine.
Qed.
End Asignar.

Lemma Sorted_le_NoDup_lt (l : list Z) :
  Sorted Z.le l -> NoDup l -> Sorted Z.lt l.
Proof.
  intros Hs Hnd. apply Sorted_StronglySorted in Hs; [| exact Z.le_trans].
  induction Hs as [| a l Hs IH Hall]; [constructor |].
  apply NoDup_cons_iff in Hnd. destruct Hnd as [Ha Hnd].
  constructor; [now apply IH |].
  destruct l as [| b l]; constructor.
  apply Forall_inv in Hall.
  assert (a <> b) by (intros ->; apply Ha; now left). lia.
Qed.

Lemma serie_diaria_fechas (df : DataFrame) :
  map dFecha (serie_diaria df) = map fst (groupby Z.eqb Z.leb Fecha df).
Proof.
  rewrite serie_diaria_por_fecha, map_map. cbn [dFecha]. apply map_id.
Qed.

(** X11: the series [tracking_electoral] returns is in strictly ascending
    order of date whatever the order of the table, and its dates are exactly
    the dates present in the table: rows without date are ignored, no date
    is invented and none is repeated. *)
Theorem tracking_electoral_fechas df config serie :
  tracking_electoral df config = Ok serie ->
  Sorted Z.lt (map tFecha serie)
  /\ (forall d, In d (map tFecha serie) <-> In (Some d) (map Fecha df)).
Proof.
  intros H. apply tracking_electoral_Ok_inv in H.
  destruct H as (_ & xs & f & _ & Hlen & _ & ->).
  rewrite asignar_tFecha by (now rewrite length_map, length_ventanas).
  rewrite serie_diaria_fechas. split.
  - apply Sorted_le_NoDup_lt; [| apply groupby_NoDup, Z.eqb_eq].
    rewrite groupby_claves. apply ordenar_Sorted.
    + intros x y. apply Z.leb_le.
    + intros x y Hxy. apply Z.leb_gt in Hxy. lia.
  - intros d. rewrite (groupby_In _ _ _ Z.eqb_eq), in_map_iff.
    split; intros (r & H1 & H2); exists r; auto.
Qed.

Lemma tracking_electoral_fechas_witness :
  exists serie,
    tracking_electoral (limpiar_datos filas_tres_dias "Candidato A")
                       config_por_defecto = Ok serie
    /\ map tFecha serie
       = [dia_2024_01_01; dia_2024_01_01 + un_dia; dia_2024_01_01 + 2 * un_dia]
    /\ Sorted Z.lt (map tFecha serie)
    /\ (forall d, In d (map tFecha serie)
                  <-> In (Some d)
                         (map Fecha (limpiar_datos filas_tres_dias "Candidato A"))).
Proof.
  eexists. split; [vm_compute; reflexivity |].
  split; [vm_compute; reflexivity |].
  apply (tracking_electoral_fechas
           (limpiar_datos filas_tres_dias "Candidato A") config_por_defecto).
  vm_compute. reflexivity.
Defined.

(** X12: on a cleaned table [tracking_electoral] passes the errors of the
    windower on: a window of 0 or less is a window error, a target column
    other than the columns of the daily series is a [KeyError], an unknown
    summary on a numeric column is a tag error; the default configuration
    never fails. *)
Theorem tracking_electoral_errores raw candidato config :
  (ventana config <= 0 ->
   tracking_electoral (limpiar_datos raw candidato) config
   = Raise InvalidWindowError)
  /\ (0 < ventana config ->
      columna_objetivo config <> "Fecha" ->
      columna_objetivo config <> "IntencionVoto" ->
      columna_objetivo config <> "ImagenMedia" ->
      tracking_electoral (limpiar_datos raw candidato) config
      = Raise (KeyError (columna_objetivo config)))
  /\ (0 < ventana config ->
      columna_objetivo config = "IntencionVoto"
      \/ columna_objetivo config = "ImagenMedia" ->
      reduccion (tipo_resumen config) = None ->
      tracking_electoral (limpiar_datos raw candidato) config
      = Raise UnsupportedWindowFunctionError)
  /\ (exists serie,
        tracking_electoral (limpiar_datos raw candidato) config_por_defecto
        = Ok serie).
Proof.
  generalize (limpiar_datos raw candidato) as df. intros df.
  unfold tracking_electoral. repeat split.
  - intros HN. unfold aplicar_funcion_ventana.
    destruct (Z.leb_spec (ventana config) 0); [reflexivity | lia].
  - intros HN H1 H2 H3. unfold aplicar_funcion_ventana.
    destruct (Z.leb_spec (ventana config) 0); [lia |].
    unfold tabla_de_serie. cbn [getitem].
    apply String.eqb_neq in H1, H2, H3. now rewrite H1, H2, H3.
  - intros HN Hcol Hf. unfold aplicar_funcion_ventana.
    destruct (Z.leb_spec (ventana config) 0); [lia |].
    unfold reduccion in Hf.
    destruct Hcol as [-> | ->]; cbn [tabla_de_serie getitem String.eqb bind];
      cbn [Ascii.eqb Bool.eqb bind];
      destruct (String.eqb (tipo_resumen config) "mean"); try discriminate;
      destruct (String.eqb (tipo_resumen config) "median"); try discriminate;
      destruct (String.eqb (tipo_resumen config) "sum"); try discriminate;
      reflexivity.
  - eexists. unfold config_por_defecto.
    cbn [columna_objetivo ventana tipo_resumen].
    rewrite (aplicar_funcion_ventana_ok (tabla_de_serie (serie_diaria df))
               "IntencionVoto" 3 "mean"
               (map dIntencionVoto (serie_diaria df)) media);
      [reflexivity | lia | left; unfold INT64_MAX; lia | reflexivity | reflexivity].
Qed.

Lemma tracking_electoral_errores_witness :
  tracking_electoral (limpiar_datos filas_tres_dias "Candidato A")
                     (mkConfig 0 "mean" "IntencionVoto" "A" None)
  = Raise InvalidWindowError
  /\ tracking_electoral (limpiar_datos filas_tres_dias "Candidato A")
                        (mkConfig 2 "mean" "Voto" "A" None)
     = Raise (KeyError "Voto")
  /\ tracking_electoral (limpiar_datos filas_tres_dias "Candidato A")
                        (mkConfig 2 "max" "ImagenMedia" "A" None)
     = Raise UnsupportedWindowFunctionError.
Proof.
  split; [| split].
  - apply (proj1 (tracking_electoral_errores filas_tres_dias "Candidato A"
                    (mkConfig 0 "mean" "IntencionVoto" "A" None))).
    simpl. lia.
  - apply (proj1 (proj2 (tracking_electoral_errores filas_tres_dias "Candidato A"
                           (mkConfig 2 "mean" "Voto" "A" None))));
      simpl; [lia | discriminate | discriminate | discriminate].
  - apply (proj1 (proj2 (proj2 (tracking_electoral_errores filas_tres_dias
                                  "Candidato A"
                                  (mkConfig 2 "max" "ImagenMedia" "A" None)))));
      simpl; [lia | now right | reflexivity].
Defined.

(** X13: the smoothed column is the windowed reduction of the target column
    of the very series that is returned: its cell of row [i] is the configured
    reduction over rows [max(0, i-N+1) .. i] of that column. *)
Theorem tracking_electoral_suavizado df config serie f i :
  tracking_electoral df config = Ok serie ->
  reduccion (tipo_resumen config) = Some f ->
  (i < length serie)%nat ->
  (columna_objetivo config = "IntencionVoto" ->
   nth i (map TrackingSuavizado serie) None
   = reducir f 1 (filas_ventana (ventana config) (Z.of_nat i)
                                (map tIntencionVoto serie)))
  /\ (columna_objetivo config = "ImagenMedia" ->
      nth i (map TrackingSuavizado serie) None
      = reducir f 1 (filas_ventana (ventana config) (Z.of_nat i)
                                   (map tImagenMedia serie))).
Proof.
  intros H Hf Hi. apply tracking_electoral_Ok_inv in H.
  destruct H as (HN & xs & f0 & Hcol & Hlen & Hf0 & ->).
  rewrite Hf in Hf0. injection Hf0 as <-.
  assert (Hl : length (map (reducir f 1)
                           (ventanas (Z.to_nat (ventana config)) [] xs))
               = length (serie_diaria df))
    by (now rewrite length_map, length_ventanas).
  rewrite asignar_TrackingSuavizado, asignar_tIntencionVoto,
    asignar_tImagenMedia by exact Hl.
  assert (Hix : (i < length xs)%nat).
  { rewrite Hlen, <- (length_map tFecha (asignar_suavizado _ _)) in *.
    rewrite asignar_tFecha in Hi by exact Hl. now rewrite length_map in Hi. }
  assert (E : nth i (map (reducir f 1)
                         (ventanas (Z.to_nat (ventana config)) [] xs)) None
              = reducir f 1 (filas_ventana (ventana config) (Z.of_nat i) xs)).
  { rewrite (nth_indep _ None (reducir f 1 []))
      by (now rewrite length_map, length_ventanas).
    rewrite map_nth, ventanas_nth by assumption.
    cbn [app]. now rewrite ultimas_filas_ventana. }
  rewrite E.
  destruct (getitem_tabla_de_serie _ _ _ Hcol) as [[Hc ->] | [Hc ->]];
    split; intros Hc'; try reflexivity; rewrite Hc in Hc'; discriminate.
Qed.

Lemma tracking_electoral_suavizado_witness :
  exists serie,
    tracking_electoral (limpiar_datos filas_tres_dias "Candidato A")
                       (mkConfig 2 "mean" "IntencionVoto" "Candidato A" None)
    = Ok serie
    /\ filas_ventana 2 1 (map tIntencionVoto serie) = [Some (1 # 2)%Q; Some 1%Q]
    /\ nth 1 (map TrackingSuavizado serie) None
       = reducir media 1 (filas_ventana 2 1 (map tIntencionVoto serie))
    /\ nth 1 (map TrackingSuavizado serie) None = Some (3 # 4)%Q.
Proof.
  eexists. split; [vm_compute; reflexivity |].
  split; [vm_compute; reflexivity |]. split; [| vm_compute; reflexivity].
  refine (proj1 (tracking_electoral_suavizado
                   (limpiar_datos filas_tres_dias "Candidato A")
                   (mkConfig 2 "mean" "IntencionVoto" "Candidato A" None)
                   _ media 1 _ _ _) _).
  - vm_compute. reflexivity.
  - reflexivity.
  - simpl. lia.
  - reflexivity.
Defined.

Lemma limpiar_datos_celdas raw candidato r :
  In r (limpiar_datos raw candidato) ->
  (exists q, intencion r = Some q /\ entre 0 1 q)
  /\ (exists q, ImagenNormalizada r = Some q /\ entre 0 1 q).
Proof.
  intros Hr. apply limpiar_datos_In in Hr. destruct Hr as (r0 & _ & E).
  unfold limpiar_fila in E.
  destruct (Fecha r0), (ImagenDelCandidato r0) as [img |], (Voto r0),
    (VotoAnterior r0), (normalizar_estrato (Estrato r0)); try discriminate.
  injection E as <-. unfold intencion. cbn. split.
  - eexists. split; [reflexivity |].
    destruct (String.eqb _ _); split; discriminate.
  - eexists. split; [reflexivity |].
    destruct (clip_rango img 0 (100 # 1)) as [H0 H1]; [discriminate |].
    split.
    + apply Qle_shift_div_l; [reflexivity |]. now rewrite Qmult_0_l.
    + apply Qle_shift_div_r; [reflexivity |]. now rewrite Qmult_1_l.
Qed.

(** A mean or a median of a non-empty window of present, bounded cells is
    present and bounded. *)
Lemma reducir_completa (f : list Q -> Q) (a b : Q) (w : list (option Q)) :
  f = media \/ f = mediana -> w <> [] -> completa_entre a b w ->
  exists q, reducir f 1 w = Some q /\ entre a b q.
Proof.
  intros Hf Hne Hw.
  assert (Hc : celdas_entre a b w).
  { intros q Hq. destruct (Hw _ Hq) as (q' & [= <-] & H). exact H. }
  destruct (reducir f 1 w) as [q |] eqn:E.
  - exists q. split; [reflexivity |]. now apply (reducir_entre f a b w).
  - exfalso. rewrite reducir_None in E.
    destruct w as [| c w]; [contradiction |].
    destruct (Hw c (or_introl eq_refl)) as (q & -> & _).
    discriminate (E (Some q) (or_introl eq_refl)).
Qed.

Lemma ventanas_no_vacia {A : Type} (k : nat) :
  (0 < k)%nat ->
  forall (xs buf w : list A), In w (ventanas k buf xs) -> w <> [].
Proof.
  intros Hk. induction xs as [| x xs IH]; intros buf w; simpl; [contradiction |].
  intros [<- | Hw]; [| now apply (IH _ _ Hw)].
  unfold ultimas. intros E. apply (f_equal (@length A)) in E.
  rewrite length_skipn, length_app in E. simpl in E. lia.
Qed.

(** The daily means of a table whose cells are present and bounded. *)
Lemma serie_diaria_completa (df : DataFrame) (col : Fila -> option Q) (a b : Q) :
  (forall r, In r df -> exists q, col r = Some q /\ entre a b q) ->
  forall d, In d (map fst (groupby Z.eqb Z.leb Fecha df)) ->
            exists q, mean (map col (filas_de_fecha d df)) = Some q /\ entre a b q.
Proof.
  intros Hdf d Hd. apply (groupby_In _ _ _ Z.eqb_eq) in Hd.
  destruct Hd as (r & Hr & Ed).
  apply reducir_completa; [now left | |].
  - assert (Hin : In r (filas_de_fecha d df)).
    { apply filter_In. split; [exact Hr |]. rewrite Ed. simpl. apply Z.eqb_refl. }
    intros E. apply (in_map col) in Hin. rewrite E in Hin. exact Hin.
  - intros c Hc. apply in_map_iff in Hc. destruct Hc as (r' & <- & Hr').
    apply filter_In in Hr'. apply Hdf, Hr'.
Qed.

(** X14: on a cleaned table, with the mean or the median as summary, every
    row of the tracking series has its three numbers present and between 0
    and 1: the daily vote intention, the daily image and the smoothed value. *)
Theorem tracking_electoral_entre_0_y_1 raw candidato config serie s :
  tracking_electoral (limpiar_datos raw candidato) config = Ok serie ->
  tipo_resumen config = "mean" \/ tipo_resumen config = "median" ->
  In s serie ->
  (exists q, tIntencionVoto s = Some q /\ entre 0 1 q)
  /\ (exists q, tImagenMedia s = Some q /\ entre 0 1 q)
  /\ (exists q, TrackingSuavizado s = Some q /\ entre 0 1 q).
Proof.
  intros H Htipo Hs. apply tracking_electoral_Ok_inv in H.
  destruct H as (HN & xs & f & Hcol & Hlen & Hf & ->).
  set (df := limpiar_datos raw candidato) in *.
  assert (Hf' : f = media \/ f = mediana).
  { destruct Htipo as [E | E]; rewrite E in Hf; vm_compute in Hf;
      injection Hf as <-; auto. }
  assert (HI : completa_entre 0 1 (map dIntencionVoto (serie_diaria df))).
  { intros c Hc. rewrite serie_diaria_por_fecha, map_map in Hc.
    apply in_map_iff in Hc. destruct Hc as (d & <- & Hd). cbn [dIntencionVoto].
    apply serie_diaria_completa; [| exact Hd].
    intros r Hr. apply (limpiar_datos_celdas raw candidato r Hr). }
  assert (HM : completa_entre 0 1 (map dImagenMedia (serie_diaria df))).
  { intros c Hc. rewrite serie_diaria_por_fecha, map_map in Hc.
    apply in_map_iff in Hc. destruct Hc as (d & <- & Hd). cbn [dImagenMedia].
    apply serie_diaria_completa; [| exact Hd].
    intros r Hr. apply (limpiar_datos_celdas raw candidato r Hr). }
  assert (Hxs : completa_entre 0 1 xs).
  { destruct (getitem_tabla_de_serie _ _ _ Hcol) as [[_ ->] | [_ ->]];
      assumption. }
  unfold asignar_suavizado in Hs. apply in_map_iff in Hs.
  destruct Hs as ([x v] & <- & Hxv). cbn.
  pose proof (in_combine_l _ _ _ _ Hxv) as Hx.
  pose proof (in_combine_r _ _ _ _ Hxv) as Hv.
  split; [apply HI; now apply in_map |].
  split; [apply HM; now apply in_map |].
  apply in_map_iff in Hv. destruct Hv as (w & <- & Hw).
  apply reducir_completa; [exact Hf' | |].
  - apply (ventanas_no_vacia (Z.to_nat (ventana config))) in Hw; [exact Hw | lia].
  - intros c Hc. apply Hxs.
    destruct (ventanas_In _ _ _ _ _ Hw Hc) as [[] | Hin]. exact Hin.
Qed.

Lemma tracking_electoral_entre_0_y_1_witness :
  exists serie s q,
    tracking_electoral (limpiar_datos filas_dos_votos "Candidate A")
                       config_por_defecto = Ok serie
    /\ In s serie /\ TrackingSuavizado s = Some q /\ entre 0 1 q.
Proof.
  assert (Hok : tracking_electoral (limpiar_datos filas_dos_votos "Candidate A")
                                   config_por_defecto
                = Ok (match tracking_electoral
                              (limpiar_datos filas_dos_votos "Candidate A")
                              config_por_defecto with
                      | Ok l => l
                      | Raise _ => []
                      end)).
  { vm_compute. reflexivity. }
  set (serie := match tracking_electoral _ _ with Ok l => l | Raise _ => [] end) in *.
  assert (Hin : In (hd (mkTracking 0 None None None) serie) serie).
  { vm_compute. left. reflexivity. }
  destruct (tracking_electoral_entre_0_y_1 _ _ _ _ _ Hok (or_introl eq_refl) Hin)
    as (_ & _ & q & Hq & Hr).
  exists serie, (hd (mkTracking 0 None None None) serie), q. auto.
Defined.

(* ================================================================= *)
(** * Further properties of the demographic summary *)

Lemma filter_todos {A : Type} (p : A -> bool) (l : list A) :
  (forall a, In a l -> p a = true) -> filter p l = l.
Proof.
  induction l as [| a l IH]; intros H; simpl; [reflexivity |].
  rewrite (H a) by now left. f_equal. apply IH. intros b Hb. apply H. now right.
Qed.

(** X15: each row of the summary stands for a non-empty group and carries the
    means of the image score and of the vote intention over the rows of the
    group; its count never exceeds the size of the group and equals it when
    every row of the table has a survey identifier. *)
Theorem indicadores_sociodemograficos_valores df i :
  In i (indicadores_sociodemograficos df) ->
  filas_de_grupo (grupo_de i) df <> []
  /\ imagen_media i = mean (map ImagenDelCandidato (filas_de_grupo (grupo_de i) df))
  /\ intencion_media i = mean (map intencion (filas_de_grupo (grupo_de i) df))
  /\ 0 <= n i <= Z.of_nat (length (filas_de_grupo (grupo_de i) df))
  /\ ((forall r, In r df -> Encuesta r <> None) ->
      n i = Z.of_nat (length (filas_de_grupo (grupo_de i) df))).
Proof.
  intros Hi. rewrite indicadores_por_grupo in Hi.
  apply in_map_iff in Hi. destruct Hi as ([[f s] e] & <- & Hg).
  unfold grupo_de.
  cbn [n iFecha iSexo iEdadRango imagen_media intencion_media].
  split; [| split; [reflexivity | split; [reflexivity |]]].
  - apply (groupby_In _ _ _ grupo_eqb_eq) in Hg. destruct Hg as (r & Hr & Ek).
    assert (Hin : In r (filas_de_grupo (f, s, e) df)).
    { apply filter_In. split; [exact Hr |]. rewrite Ek.
      now apply (option_eqb_eq _ grupo_eqb_eq). }
    intros E. rewrite E in Hin. exact Hin.
  - rewrite count_map_filter. split.
    + split; [lia |]. apply inj_le, filter_length_le.
    + intros Henc. rewrite filter_todos; [reflexivity |].
      intros r Hr. apply filter_In in Hr.
      specialize (Henc r (proj1 Hr)). now destruct (Encuesta r).
Qed.

Lemma indicadores_sociodemograficos_valores_witness :
  let df := limpiar_datos filas_dos_votos "Candidate A" in
  let i := hd (mkIndicador 0 "x" "x" 0 None None) (indicadores_sociodemograficos df) in
  In i (indicadores_sociodemograficos df)
  /\ n i = Z.of_nat (length (filas_de_grupo (grupo_de i) df)).
Proof.
  cbv zeta.
  assert (Hin : In (hd (mkIndicador 0 "x" "x" 0 None None)
                       (indicadores_sociodemograficos
                          (limpiar_datos filas_dos_votos "Candidate A")))
                   (indicadores_sociodemograficos
                      (limpiar_datos filas_dos_votos "Candidate A"))).
  { vm_compute. left. reflexivity. }
  split; [exact Hin |].
  destruct (indicadores_sociodemograficos_valores _ _ Hin) as (_ & _ & _ & _ & H).
  apply H. intros r Hr.
  assert (He : forallb (fun r => notna (Encuesta r))
                       (limpiar_datos filas_dos_votos "Candidate A") = true).
  { vm_compute. reflexivity. }
  rewrite forallb_forall in He. specialize (He r Hr).
  destruct (Encuesta r); [discriminate | discriminate He].
Defined.

Section Particion.
Context {K : Type} (eqb : K -> K -> bool) (key : Fila -> option K).
Hypothesis eqb_eq : forall a b, eqb a b = true <-> a = b.

Lemma suma_un_grupo (k0 : K) (r : Fila) (F : K -> list Fila) :
  forall claves,
    NoDup claves -> In k0 claves ->
    list_sum (map (fun k => length (if eqb k0 k then r :: F k else F k)) claves)
    = S (list_sum (map (fun k => length (F k)) claves)).
Proof.
  induction claves as [| k ks IH]; intros Hnd Hin; [contradiction |].
  apply NoDup_cons_iff in Hnd. destruct Hnd as [Hk Hnd]. simpl.
  destruct (eqb k0 k) eqn:E.
  - apply eqb_eq in E. subst k.
    assert (E : map (fun k => length (if eqb k0 k then r :: F k else F k)) ks
                = map (fun k => length (F k)) ks).
    { apply map_ext_in. intros k Hks.
      destruct (eqb k0 k) eqn:E'; [| reflexivity].
      apply eqb_eq in E'. subst k. contradiction. }
    rewrite E. reflexivity.
  - destruct Hin as [-> | Hin].
    + assert (eqb k0 k0 = true) by now apply eqb_eq. congruence.
    + rewrite IH by assumption. lia.
Qed.

(** The groups of a list of distinct keys that covers the table split the
    rows that have a key. *)
Lemma grupos_particion (claves : list K) :
  NoDup claves ->
  forall df,
    (forall r k, In r df -> key r = Some k -> In k claves) ->
    list_sum (map (fun k => length (filter (fun r => option_eqb eqb (key r) (Some k)) df))
                  claves)
    = length (filter (fun r => notna (key r)) df).
Proof.
  intros Hnd. induction df as [| r df IH]; intros Hcov.
  - simpl. clear. induction claves as [| k ks IHk]; [reflexivity | exact IHk].
  - assert (Hcov' : forall r k, In r df -> key r = Some k -> In k claves).
    { intros r' k Hr'. apply Hcov. now right. }
    specialize (IH Hcov'). cbn [filter].
    destruct (key r) as [k0 |] eqn:Ek; cbn [notna option_eqb length].
    + rewrite <- IH. apply suma_un_grupo; [exact Hnd |].
      apply (Hcov r); [now left | exact Ek].
    + exact IH.
Qed.
End Particion.

(** X16: the groups of the summary split the rows that have date, sex and
    age bracket: their sizes add up to the number of those rows, so no row
    is counted in two groups and none with the three keys is left out. *)
Theorem indicadores_sociodemograficos_particion df :
  list_sum (map (fun i => length (filas_de_grupo (grupo_de i) df))
                (indicadores_sociodemograficos df))
  = length (filter (fun r => notna (clave_demografica r)) df).
Proof.
  rewrite <- (map_map grupo_de (fun g => length (filas_de_grupo g df))).
  rewrite grupo_de_indicadores. unfold filas_de_grupo.
  apply (grupos_particion grupo_eqb clave_demografica grupo_eqb_eq).
  - apply groupby_NoDup, grupo_eqb_eq.
  - intros r k Hr Ek. apply (groupby_In _ _ _ grupo_eqb_eq). exists r. auto.
Qed.

Lemma Sorted_map_impl {A B : Type} (g : A -> B) (R1 : A -> A -> Prop)
      (R2 : B -> B -> Prop) :
  (forall a b, R1 a b -> R2 (g a) (g b)) ->
  forall l, Sorted R1 l -> Sorted R2 (map g l).
Proof.
  intros H. induction l as [| a l IH]; intros Hs; simpl; [constructor |].
  inversion Hs as [| ? ? Hs' Hhd]; subst. constructor; [now apply IH |].
  destruct l; simpl; constructor. apply H. now inversion Hhd.
Qed.

Lemma grupo_leb_total (a b : GrupoDemografico) :
  grupo_leb a b = false -> grupo_leb b a = true.
Proof.
  destruct a as [[f1 s1] e1], b as [[f2 s2] e2]. unfold grupo_leb.
  rewrite (String.compare_antisym s1 s2).
  generalize (indice labels_edad e1) (indice labels_edad e2). intros i1 i2.
  destruct (Z.ltb_spec f1 f2), (Z.ltb_spec f2 f1); try discriminate;
    try reflexivity; try lia.
  destruct (String.compare s2 s1); cbn [CompOpp]; try discriminate;
    try reflexivity.
  intros Hidx. apply Nat.leb_gt in Hidx. apply Nat.leb_le. lia.
Qed.

Lemma grupo_leb_fecha (a b : GrupoDemografico) :
  grupo_leb a b = true -> fst (fst a) <= fst (fst b).
Proof.
  destruct a as [[f1 s1] e1], b as [[f2 s2] e2]. unfold grupo_leb. simpl.
  destruct (Z.ltb_spec f1 f2), (Z.ltb_spec f2 f1); try discriminate; lia.
Qed.

(** The bracket of a cleaned row is one of the four labels. *)
Lemma limpiar_datos_rango_conocido df candidato r e :
  In r (limpiar_datos df candidato) -> EdadRango r = Some e -> In e labels_edad.
Proof.
  intros Hr. apply limpiar_datos_In in Hr. destruct Hr as (r0 & _ & E).
  unfold limpiar_fila in E.
  destruct (Fecha r0), (ImagenDelCandidato r0), (Voto r0), (VotoAnterior r0),
    (normalizar_estrato (Estrato r0)); try discriminate.
  injection E as <-. cbn [EdadRango].
  destruct (Edad r0) as [x |]; [| discriminate].
  unfold bins_edad, labels_edad. cbn [cut].
  repeat (destruct (andb _ _); [intros [= <-]; simpl; tauto |]).
  discriminate.
Qed.

Lemma Sorted_fortalecer {A : Type} (R R' : A -> A -> Prop) (P : A -> Prop) :
  (forall a b, P a -> P b -> R a b -> a <> b -> R' a b) ->
  forall l, Forall P l -> NoDup l -> Sorted R l -> Sorted R' l.
Proof.
  intros H. induction l as [| a l IH]; intros HP Hnd Hs; [constructor |].
  inversion HP as [| ? ? Pa HP']; subst.
  apply NoDup_cons_iff in Hnd. destruct Hnd as [Ha Hnd].
  inversion Hs as [| ? ? Hs' Hhd]; subst.
  constructor; [now apply IH |].
  destruct l as [| b l]; constructor.
  apply H; [exact Pa | now inversion HP' | now inversion Hhd |].
  intros ->. apply Ha. now left.
Qed.

(** Between two different groups with known brackets, the order [groupby]
    sorts with is the order by date, then sex, then first age of the
    bracket. *)
Lemma grupo_leb_antes (a b : GrupoDemografico) :
  In (snd a) labels_edad -> In (snd b) labels_edad ->
  grupo_leb a b = true -> a <> b -> antes_en_resumen a b.
Proof.
  destruct a as [[f1 s1] e1], b as [[f2 s2] e2]. cbn [snd].
  unfold grupo_leb, antes_en_resumen, String.ltb. intros H1 H2 Hle Hne.
  destruct (Z.ltb_spec f1 f2); [now left |].
  destruct (Z.ltb_spec f2 f1); [discriminate |].
  assert (f1 = f2) by lia. subst f2. right. split; [reflexivity |].
  destruct (String.compare s1 s2) eqn:Ec; [| now left | discriminate].
  apply String.compare_eq_iff in Ec. subst s2. right. split; [reflexivity |].
  unfold labels_edad in H1, H2. simpl in H1, H2.
  destruct H1 as [<- | [<- | [<- | [<- | []]]]];
    destruct H2 as [<- | [<- | [<- | [<- | []]]]];
    try (exfalso; apply Hne; reflexivity);
    try (vm_compute in Hle; discriminate Hle);
    vm_compute; reflexivity.
Qed.

(** X17: the rows of the summary of a cleaned table come ordered by date;
    on one date, by sex in alphabetical order; for one date and sex, by age
    bracket from the youngest to the oldest; no two rows stand for the same
    group.  Six respondents of two days given in no order are summarised as
    F 30-44, F 60+, M 18-29, M 60+ of the first day, then M 45-59 of the
    second. *)
Theorem indicadores_sociodemograficos_orden raw candidato :
  Sorted antes_en_resumen
         (map grupo_de
              (indicadores_sociodemograficos (limpiar_datos raw candidato)))
  /\ Sorted Z.le
            (map iFecha
                 (indicadores_sociodemograficos (limpiar_datos raw candidato)))
  /\ map (fun i => (grupo_de i, n i))
         (indicadores_sociodemograficos (limpiar_datos filas_grupos "Candidato A"))
     = [ ((dia_2024_01_01, "F", "30-44"), 1);
         ((dia_2024_01_01, "F", "60+"), 1);
         ((dia_2024_01_01, "M", "18-29"), 2);
         ((dia_2024_01_01, "M", "60+"), 1);
         ((dia_2024_01_01 + un_dia, "M", "45-59"), 1) ].
Proof.
  set (df := limpiar_datos raw candidato).
  assert (H : Sorted (fun a b => grupo_leb a b = true)
                     (map grupo_de (indicadores_sociodemograficos df))).
  { rewrite grupo_de_indicadores, groupby_claves.
    apply ordenar_Sorted; [auto | apply grupo_leb_total]. }
  split; [| split].
  - revert H.
    apply (Sorted_fortalecer _ _ (fun g => In (snd g) labels_edad)).
    + intros a b. apply grupo_leb_antes.
    + rewrite grupo_de_indicadores. apply Forall_forall. intros g Hg.
      apply (groupby_In _ _ _ grupo_eqb_eq) in Hg. destruct Hg as (r & Hr & Ek).
      unfold clave_demografica in Ek.
      destruct (Fecha r), (Sexo r), (EdadRango r) as [e |] eqn:Ee;
        try discriminate.
      injection Ek as <-. cbn [snd].
      exact (limpiar_datos_rango_conocido raw candidato r e Hr Ee).
    + rewrite grupo_de_indicadores. apply groupby_NoDup, grupo_eqb_eq.
  - rewrite <- (map_map grupo_de (fun g => fst (fst g))).
    revert H. apply Sorted_map_impl. apply grupo_leb_fecha.
  - vm_compute. reflexivity.
Qed.

(* ================================================================= *)
(** * Further properties of the loader and of the pipeline *)

(** The rows the loader returns, without their index labels. *)
Lemma cargar_datos_filas (argsort : list (option Z) -> list nat)
      (leido : DataFrame) :
  contrato_en argsort (map Fecha leido) ->
  Sorted fecha_le (map Fecha (map snd (cargar_datos argsort leido)))
  /\ Permutation (map snd (cargar_datos argsort leido)) leido.
Proof.
  intros Hc. rewrite <- map_Fecha_indexado in Hc.
  unfold cargar_datos, reset_index_drop, sort_values_Fecha.
  set (df := combine (seq 0 (length leido)) leido) in *.
  destruct Hc as [Hperm Hsort].
  rewrite length_map in Hperm.
  set (idx := argsort (map (fun r : nat * Fila => Fecha (snd r)) df)) in *.
  rewrite map_snd_combine by now rewrite length_seq, length_map.
  split.
  - rewrite map_map, (map_take _ None); [exact Hsort |].
    intros i Hi. apply (Permutation_in _ Hperm), in_seq in Hi. lia.
  - transitivity (map snd df).
    + apply Permutation_map. now apply take_perm.
    + unfold df. rewrite map_snd_combine; [reflexivity | apply length_seq].
Qed.

Lemma fecha_le_trans (a b c : option Z) :
  fecha_le a b -> fecha_le b c -> fecha_le a c.
Proof. destruct a, b, c; simpl; try easy. lia. Qed.

Lemma fecha_le_antisym (a b : option Z) : fecha_le a b -> fecha_le b a -> a = b.
Proof. destruct a, b; simpl; try easy. intros. f_equal. lia. Qed.

(** The order of the rows of a table by date. *)
Lemma Sorted_filas (l : list Fila) :
  Sorted fecha_le (map Fecha l)
  <-> StronglySorted (fun r1 r2 => fecha_le (Fecha r1) (Fecha r2)) l.
Proof.
  split.
  - intros H. apply Sorted_StronglySorted.
    + intros x y z. apply fecha_le_trans.
    + induction l as [| a l IH]; [constructor |].
      simpl in H. inversion H as [| ? ? Hs Hhd]; subst.
      constructor; [now apply IH |].
      destruct l; constructor. now inversion Hhd.
  - intros H. apply StronglySorted_Sorted in H. now apply Sorted_map.
Qed.

Section Subtablas.
Variable R : Fila -> Fila -> Prop.

Lemma StronglySorted_filter (p : Fila -> bool) (l : list Fila) :
  StronglySorted R l -> StronglySorted R (filter p l).
Proof.
  induction 1 as [| a l Hs IH Hall]; simpl; [constructor |].
  destruct (p a); [| exact IH]. constructor; [exact IH |].
  rewrite Forall_forall in *. intros x Hx. apply Hall.
  now apply filter_In in Hx.
Qed.

Lemma StronglySorted_primeras {K : Type} (eqb : K -> K -> bool) (key : Fila -> K) :
  forall l vistas,
    StronglySorted R l -> StronglySorted R (primeras eqb key vistas l).
Proof.
  induction l as [| a l IH]; intros vistas Hs; simpl; [constructor |].
  inversion Hs as [| ? ? Hs' Hall]; subst.
  destruct (existsb (eqb (key a)) vistas); [now apply IH |].
  constructor; [now apply IH |].
  rewrite Forall_forall in *. intros x Hx. apply Hall.
  eapply primeras_In, Hx.
Qed.
End Subtablas.

Lemma limpiar_datos_intactos df candidato :
  map datos_intactos (limpiar_datos df candidato)
  = map datos_intactos (filter fila_completa (drop_duplicates df)).
Proof.
  rewrite limpiar_datos_por_filas. apply map_omap_filter.
  - intros a b. apply (limpiar_fila_completa candidato a).
  - apply (limpiar_fila_completa candidato).
Qed.

Lemma limpiar_datos_Fecha df candidato :
  map Fecha (limpiar_datos df candidato)
  = map Fecha (filter fila_completa (drop_duplicates df)).
Proof.
  pose proof (limpiar_datos_intactos df candidato) as H.
  apply (f_equal (map (fun t : option Z * option string * option string
                                * option Z * option string * option Z * option Q =>
                         fst (fst (fst (fst (fst (fst t)))))))) in H.
  now rewrite !map_map in H.
Qed.

(** X18: cleaning keeps the order the loader established: the cleaned table
    of a loaded file is in ascending order of date, whatever sorting
    algorithm the loader used. *)
Theorem limpiar_datos_conserva_orden (argsort : list (option Z) -> list nat)
        (leido : DataFrame) (candidato : string) :
  contrato_argsort argsort ->
  Sorted fecha_le
         (map Fecha (limpiar_datos (map snd (cargar_datos argsort leido)) candidato)).
Proof.
  intros Hc. destruct (cargar_datos_filas argsort leido (Hc _)) as [Hs _].
  rewrite limpiar_datos_Fecha. apply Sorted_filas.
  apply StronglySorted_filter. unfold drop_duplicates.
  apply StronglySorted_primeras. now apply Sorted_filas.
Qed.

Lemma limpiar_datos_conserva_orden_witness :
  Sorted fecha_le
         (map Fecha (limpiar_datos (map snd (cargar_datos argsort_estable
                                                          filas_tres_dias))
                                   "Candidato A")).
Proof.
  exact (limpiar_datos_conserva_orden argsort_estable filas_tres_dias
           "Candidato A" contrato_argsort_estable).
Defined.

Lemma NoDup_map_inj {A B : Type} (g : A -> B) (l : list A) (a b : A) :
  NoDup (map g l) -> In a l -> In b l -> g a = g b -> a = b.
Proof.
  induction l as [| x l IH]; simpl; [contradiction |].
  intros Hnd Ha Hb E. apply NoDup_cons_iff in Hnd. destruct Hnd as [Hx Hnd].
  destruct Ha as [-> | Ha], Hb as [-> | Hb]; try reflexivity.
  - exfalso. apply Hx. rewrite E. now apply in_map.
  - exfalso. apply Hx. rewrite <- E. now apply in_map.
  - now apply IH.
Qed.

(** Two arrangements of the same rows in ascending order of date coincide
    when no date is repeated. *)
Lemma orden_unico :
  forall l1 l2 : list Fila,
    StronglySorted (fun r1 r2 => fecha_le (Fecha r1) (Fecha r2)) l1 ->
    StronglySorted (fun r1 r2 => fecha_le (Fecha r1) (Fecha r2)) l2 ->
    Permutation l1 l2 -> NoDup (map Fecha l1) -> l1 = l2.
Proof.
  induction l1 as [| a t IH]; intros l2 H1 H2 Hp Hnd.
  - apply Permutation_nil in Hp. now subst.
  - destruct l2 as [| b t2].
    { symmetry in Hp. apply Permutation_nil in Hp. discriminate. }
    inversion H1 as [| ? ? H1' Hall1]; subst.
    inversion H2 as [| ? ? H2' Hall2]; subst.
    rewrite Forall_forall in Hall1, Hall2.
    assert (Hab : a = b).
    { assert (Ha : In a (b :: t2)) by (apply (Permutation_in _ Hp); now left).
      assert (Hb : In b (a :: t)).
      { apply (Permutation_in _ (Permutation_sym Hp)). now left. }
      destruct Ha as [<- | Ha]; [reflexivity |].
      destruct Hb as [<- | Hb]; [reflexivity |].
      apply (NoDup_map_inj Fecha (a :: t)); [exact Hnd | now left | now right |].
      apply fecha_le_antisym; [now apply Hall1 | now apply Hall2]. }
    subst b. f_equal. apply IH; try assumption.
    + now apply Permutation_cons_inv in Hp.
    + simpl in Hnd. now apply NoDup_cons_iff in Hnd.
Qed.

(** X19: when no two rows of the file have the same date (and at most one
    has none), the loader's result does not depend on the sorting algorithm:
    whenever the algorithm sorts the dates of the file, the result is the one
    arrangement of the rows in ascending order of date.  In particular a file
    already in that order is returned as it was read. *)
Theorem cargar_datos_fechas_distintas (argsort : list (option Z) -> list nat)
        (leido orden : DataFrame) :
  contrato_en argsort (map Fecha leido) ->
  NoDup (map Fecha leido) ->
  Permutation orden leido ->
  Sorted fecha_le (map Fecha orden) ->
  cargar_datos argsort leido = combine (seq 0 (length leido)) orden.
Proof.
  intros Hc Hnd Hp Hs.
  destruct (cargar_datos_filas argsort leido Hc) as [Hs' Hp'].
  assert (E : map snd (cargar_datos argsort leido) = orden).
  { apply orden_unico.
    - now apply Sorted_filas.
    - now apply Sorted_filas.
    - now rewrite Hp', Hp.
    - eapply Permutation_NoDup; [| exact Hnd].
      apply Permutation_map. now symmetry. }
  unfold cargar_datos, reset_index_drop in *.
  set (sv := sort_values_Fecha argsort (combine (seq 0 (length leido)) leido)) in *.
  rewrite map_snd_combine in E by now rewrite length_seq, length_map.
  rewrite E. f_equal. f_equal.
  rewrite <- (length_map snd sv), E. now apply Permutation_length.
Qed.

Lemma cargar_datos_fechas_distintas_witness :
  cargar_datos nargsort filas_fechas_distintas
  = [ (0%nat, fila_fechada 0 "E2" "Candidato B" (40 # 1));
      (1%nat, fila_fechada 1 "E3" "Candidato A" (70 # 1));
      (2%nat, fila_fechada 2 "E1" "Candidato A" (90 # 1)) ].
Proof.
  apply (cargar_datos_fechas_distintas nargsort filas_fechas_distintas
           [ fila_fechada 0 "E2" "Candidato B" (40 # 1);
             fila_fechada 1 "E3" "Candidato A" (70 # 1);
             fila_fechada 2 "E1" "Candidato A" (90 # 1) ]).
  - apply contrato_en_b_ok. vm_compute. reflexivity.
  - unfold filas_fechas_distintas, fila_fechada, dia_2024_01_01, un_dia.
    cbn [map Fecha].
    repeat (constructor; [simpl; intuition discriminate |]). constructor.
  - unfold filas_fechas_distintas.
    apply perm_trans with
      (l' := [ fila_fechada 0 "E2" "Candidato B" (40 # 1);
               fila_fechada 2 "E1" "Candidato A" (90 # 1);
               fila_fechada 1 "E3" "Candidato A" (70 # 1) ]).
    + apply perm_skip, perm_swap.
    + apply perm_swap.
  - unfold fila_fechada, dia_2024_01_01, un_dia. cbn [map Fecha].
    repeat constructor; simpl; lia.
Defined.
